(** * cc-standup: the proof-log parser, the aggregator and the formatters

    A shallow embedding of [cli.mjs].

    - A JavaScript string is a sequence of UTF-16 code units; [length],
      [substring], [slice], [split], [trim] and the (non-unicode) regular
      expressions of the source all work on code units.  [jsstring] is
      [list N]; literals of the source are written with [js "..."], which
      decodes the UTF-8 bytes of a literal into code units.
    - The numbers the program handles come from [parseInt] on a run of
      decimal digits and from sums of such values.  They are modelled by
      [N]; this is the behaviour of the source as long as the values stay in
      the range where a double represents integers exactly, up to
      [MAX_SAFE_INTEGER].  What is stated about the values read, summed or
      printed carries that bound.  [Double] has the arithmetic of
      [fmtHours] on doubles themselves, beyond that range too.
    - What depends on the host ([toLocaleString], [toFixed] on a quotient,
      the weekday of a date, the file system) is a parameter of the
      formatters or an explicit input.
    - [byProject] is a plain object used as a map: its own properties are
      an association list in creation order, [Object.prototype] is above
      it, and [Object.entries] lists array-index names before the others.

    The definitions come first, in the order of the source; the notions
    the statements need and the sample logs follow; then the proofs. *)

From Stdlib Require Import List NArith ZArith Lia Bool Ascii String Sorted Permutation.
From Stdlib Require Import DecimalString DecimalN.
Import ListNotations.
Open Scope N_scope.
Open Scope list_scope.

(** ** Strings *)

Definition jsstring := list N.

Definition cont (a : ascii) : N := N.land (N_of_ascii a) 0x3F.

(** UTF-8 bytes of a literal to UTF-16 code units. *)
Fixpoint js (s : string) : jsstring :=
  match s with
  | EmptyString => []
  | String a s1 =>
    let b := N_of_ascii a in
    if b <? 0x80 then b :: js s1
    else match s1 with
    | EmptyString => []
    | String a2 s2 =>
      if b <? 0xE0 then
        N.lor (N.shiftl (N.land b 0x1F) 6) (cont a2) :: js s2
      else match s2 with
      | EmptyString => []
      | String a3 s3 =>
        if b <? 0xF0 then
          N.lor (N.shiftl (N.land b 0x0F) 12)
                (N.lor (N.shiftl (cont a2) 6) (cont a3)) :: js s3
        else match s3 with
        | EmptyString => []
        | String a4 s4 =>
          let cp := N.lor (N.shiftl (N.land b 0x07) 18)
                   (N.lor (N.shiftl (cont a2) 12)
                   (N.lor (N.shiftl (cont a3) 6) (cont a4))) in
          let v := cp - 0x10000 in
          (0xD800 + N.shiftr v 10) :: (0xDC00 + N.land v 0x3FF) :: js s4
        end
      end
    end
  end.

Definition str_eqb (a b : jsstring) : bool :=
  if list_eq_dec N.eq_dec a b then true else false.

(** [Array.prototype.join]. *)
Fixpoint join (sep : jsstring) (parts : list jsstring) : jsstring :=
  match parts with
  | [] => []
  | [p] => p
  | p :: rest => p ++ sep ++ join sep rest
  end.

(** [String.prototype.split] with a one-unit separator. *)
Fixpoint split (sep : N) (s : jsstring) : list jsstring :=
  match s with
  | [] => [[]]
  | c :: s' =>
    if c =? sep then [] :: split sep s'
    else match split sep s' with
         | [] => [[c]]
         | p :: ps => (c :: p) :: ps
         end
  end.

(** WhiteSpace and LineTerminator code points, as [trim] strips them. *)
Definition is_ws (c : N) : bool :=
  (c =? 0x09) || (c =? 0x0A) || (c =? 0x0B) || (c =? 0x0C) || (c =? 0x0D)
  || (c =? 0x20) || (c =? 0xA0) || (c =? 0x1680)
  || ((0x2000 <=? c) && (c <=? 0x200A))
  || (c =? 0x2028) || (c =? 0x2029) || (c =? 0x202F) || (c =? 0x205F)
  || (c =? 0x3000) || (c =? 0xFEFF).

Fixpoint trimStart (s : jsstring) : jsstring :=
  match s with
  | [] => []
  | c :: s' => if is_ws c then trimStart s' else s
  end.

Definition trimEnd (s : jsstring) : jsstring := rev (trimStart (rev s)).

Definition trim (s : jsstring) : jsstring := trimEnd (trimStart s).

(** ** Numbers and their decimal form *)

Fixpoint uint_units (d : Decimal.uint) : jsstring :=
  match d with
  | Decimal.Nil => []
  | Decimal.D0 d => 48 :: uint_units d
  | Decimal.D1 d => 49 :: uint_units d
  | Decimal.D2 d => 50 :: uint_units d
  | Decimal.D3 d => 51 :: uint_units d
  | Decimal.D4 d => 52 :: uint_units d
  | Decimal.D5 d => 53 :: uint_units d
  | Decimal.D6 d => 54 :: uint_units d
  | Decimal.D7 d => 55 :: uint_units d
  | Decimal.D8 d => 56 :: uint_units d
  | Decimal.D9 d => 57 :: uint_units d
  end.

(** [Number.MAX_SAFE_INTEGER], 2^53 - 1: up to it every integer is a
    double, and sums and [parseInt] are exact. *)
Definition MAX_SAFE_INTEGER : N := 9007199254740991.

Definition safe (n : N) : bool := n <=? MAX_SAFE_INTEGER.

(** The decimal numeral of a number: what a template literal gives for an
    integer up to [MAX_SAFE_INTEGER] ([Double.toString] has the digits of
    the larger doubles and the exponent form). *)
Definition num (n : N) : jsstring := uint_units (N.to_uint n).

Definition is_digit (c : N) : bool := (48 <=? c) && (c <=? 57).

(** [parseInt(s, 10)] on a run of digits: the integer written.  The
    source has the double nearest to it, which is the integer itself up
    to [MAX_SAFE_INTEGER]. *)
Definition parseInt (s : jsstring) : N :=
  fold_left (fun acc c => 10 * acc + (c - 48)) s 0.

(** ** Regular expressions

    The fragment the five patterns of the source use: every pattern is
    anchored at the start, a node is one character of a class, a greedy
    [+] of a class, a group bracket, or the end anchor.  The patterns have
    no [u] and no [m] flag, so they see code units and [$] is the end of
    the input. *)

Inductive cclass :=
| Lit (c : N)      (* a literal code unit *)
| Digit            (* \d *)
| Dot.             (* . : anything but a line terminator *)

Inductive node :=
| Chr (c : cclass)
| Plus (c : cclass)
| GOpen
| GClose
| Eos.

Definition regex := list node.

Definition accepts (c : cclass) (x : N) : bool :=
  match c with
  | Lit y => x =? y
  | Digit => is_digit x
  | Dot => negb ((x =? 0x0A) || (x =? 0x0D) || (x =? 0x2028) || (x =? 0x2029))
  end.

(** The group being captured, most recent unit first. *)
Definition push (x : N) (cur : option jsstring) : option jsstring :=
  match cur with
  | Some acc => Some (x :: acc)
  | None => None
  end.

Definition close (cur : option jsstring) (caps : list jsstring) : list jsstring :=
  match cur with
  | Some acc => rev acc :: caps
  | None => caps
  end.

(** Backtracking match from the start of [s]; the result lists the
    captured groups in order.  A greedy [+] first tries to take one more
    unit and only then lets the rest of the pattern run. *)
Fixpoint run (r : regex) (s : jsstring) (cur : option jsstring)
         (caps : list jsstring) {struct r} : option (list jsstring) :=
  match r with
  | [] => Some (rev caps)
  | Chr c :: r' =>
    match s with
    | x :: s' => if accepts c x then run r' s' (push x cur) caps else None
    | [] => None
    end
  | Plus c :: r' =>
    (fix more (s : jsstring) (cur : option jsstring) {struct s} :=
       match s with
       | [] => None
       | x :: s' =>
         if accepts c x then
           match more s' (push x cur) with
           | Some m => Some m
           | None => run r' s' (push x cur) caps
           end
         else None
       end) s cur
  | GOpen :: r' => run r' s (Some []) caps
  | GClose :: r' => run r' s None (close cur caps)
  | Eos :: r' =>
    match s with
    | [] => run r' s cur caps
    | _ :: _ => None
    end
  end.

(** [RegExp.prototype.exec]: the captured groups, or nothing. *)
Definition exec (r : regex) (s : jsstring) : option (list jsstring) :=
  run r s None [].

Definition lit (s : string) : regex := map (fun c => Chr (Lit c)) (js s).
Definition digits (n : nat) : regex := repeat (Chr Digit) n.
Definition group (r : regex) : regex := GOpen :: r ++ [GClose].

(** [/^### (\d{4}-\d{2}-\d{2}) (\d{2}:\d{2})-(\d{2}:\d{2}) JST/] *)
Definition SESSION_HEADER : regex :=
  lit "### "
  ++ group (digits 4 ++ lit "-" ++ digits 2 ++ lit "-" ++ digits 2)
  ++ lit " " ++ group (digits 2 ++ lit ":" ++ digits 2)
  ++ lit "-" ++ group (digits 2 ++ lit ":" ++ digits 2)
  ++ lit " JST".

(** [/^- どこで: (.+)$/] *)
Definition WHERE_LINE : regex :=
  lit "- どこで: " ++ group [Plus Dot] ++ [Eos].

(** [/^- 誰が: CC: (\d+)件/] *)
Definition WHO_LINE : regex :=
  lit "- 誰が: CC: " ++ group [Plus Digit] ++ lit "件".

(** [/^- 何を: (\d+)ファイル変更 \(\+(\d+)\/-(\d+)\)/] *)
Definition WHAT_LINE : regex :=
  lit "- 何を: " ++ group [Plus Digit] ++ lit "ファイル変更 (+"
  ++ group [Plus Digit] ++ lit "/-" ++ group [Plus Digit] ++ lit ")".

(** [/^- いつ: .+JST（(\d+)分）/] *)
Definition DURATION_LINE : regex :=
  lit "- いつ: " ++ [Plus Dot] ++ lit "JST（"
  ++ group [Plus Digit] ++ lit "分）".

(** ** The parser *)

Record Session := mkSession {
  date : jsstring;
  durationMin : N;
  project : option jsstring;
  ccActions : N;
  filesChanged : N;
  linesAdded : N;
  linesRemoved : N
}.

Definition newSession (d : jsstring) : Session :=
  mkSession d 0 None 0 0 0 0.

Definition set_durationMin (v : N) (s : Session) : Session :=
  mkSession (date s) v (project s) (ccActions s) (filesChanged s)
            (linesAdded s) (linesRemoved s).
Definition set_project (v : jsstring) (s : Session) : Session :=
  mkSession (date s) (durationMin s) (Some v) (ccActions s) (filesChanged s)
            (linesAdded s) (linesRemoved s).
Definition set_ccActions (v : N) (s : Session) : Session :=
  mkSession (date s) (durationMin s) (project s) v (filesChanged s)
            (linesAdded s) (linesRemoved s).
Definition set_what (f a r : N) (s : Session) : Session :=
  mkSession (date s) (durationMin s) (project s) (ccActions s) f a r.

(** The i-th group of a match ([m[i]] with i >= 1). *)
Definition grp (m : list jsstring) (i : nat) : jsstring := nth (i - 1) m [].

(** The field matchers of the loop body, tried in the order of the source
    on a line that is not a header, with a session open. *)
Definition field (line : jsstring) (cur : Session) : Session :=
  match exec DURATION_LINE line with
  | Some m => set_durationMin (parseInt (grp m 1)) cur
  | None =>
  match exec WHERE_LINE line with
  | Some m => set_project (trim (grp m 1)) cur
  | None =>
  match exec WHO_LINE line with
  | Some m => set_ccActions (parseInt (grp m 1)) cur
  | None =>
  match exec WHAT_LINE line with
  | Some m => set_what (parseInt (grp m 1)) (parseInt (grp m 2))
                       (parseInt (grp m 3)) cur
  | None => cur
  end end end end.

(** The loop state: the [sessions] array and [current]. *)
Definition pstate := (list Session * option Session)%type.

(** One iteration of the loop over the lines. *)
Definition step (st : pstate) (raw : jsstring) : pstate :=
  let '(sessions, current) := st in
  let line := trim raw in
  match exec SESSION_HEADER line with
  | Some m =>
    (match current with
     | Some c => sessions ++ [c]
     | None => sessions
     end,
     Some (newSession (grp m 1)))
  | None =>
    match current with
    | None => st
    | Some c => (sessions, Some (field line c))
    end
  end.

Definition finish (st : pstate) : list Session :=
  match snd st with
  | Some c => fst st ++ [c]
  | None => fst st
  end.

Definition parseLines (raws : list jsstring) : list Session :=
  finish (fold_left step raws ([], None)).

Definition parseProofLog (content : jsstring) : list Session :=
  parseLines (split 0x0A content).

(** ** Load and aggregate *)

Module Stats.
Record t := mk {
  minutes : N;
  sessions : N;
  linesAdded : N;
  files : N
}.
End Stats.

(** The own properties of [byProject], in the order of their creation. *)
Definition obj := list (jsstring * Stats.t).

(** [byProject = {}] has [Object.prototype] above it: a lookup of one of
    these names finds the inherited function (or, for [__proto__], the
    prototype itself), which is truthy.  What the loop then writes on
    such an inherited object ([undefined + n], that is [NaN]) is falsy, so
    a later lookup of [minutes], [sessions], [linesAdded] or [files] still
    behaves as a lookup of a name that is not there. *)
Definition Object_prototype_keys : list jsstring :=
  map js ["constructor"; "__defineGetter__"; "__defineSetter__";
          "hasOwnProperty"; "__lookupGetter__"; "__lookupSetter__";
          "isPrototypeOf"; "propertyIsEnumerable"; "toString"; "valueOf";
          "__proto__"; "toLocaleString"]%string.

Definition inherited (k : jsstring) : bool :=
  existsb (str_eqb k) Object_prototype_keys.

Fixpoint own (o : obj) (k : jsstring) : option Stats.t :=
  match o with
  | [] => None
  | (k', v) :: o' => if str_eqb k k' then Some v else own o' k
  end.

(** [!byProject[k]] *)
Definition absent (o : obj) (k : jsstring) : bool :=
  match own o k with
  | Some _ => false
  | None => negb (inherited k)
  end.

(** [byProject[k] = v] for a [k] that is not an own property yet. *)
Definition create (o : obj) (k : jsstring) (v : Stats.t) : obj := o ++ [(k, v)].

(** The four [byProject[k].x += ...]: they change the own bucket of [k];
    when [byProject[k]] is an inherited object the writes land on that
    object and no own property of [byProject] changes. *)
Fixpoint update (o : obj) (k : jsstring) (f : Stats.t -> Stats.t) : obj :=
  match o with
  | [] => []
  | (k', v) :: o' =>
    if str_eqb k k' then (k', f v) :: o' else (k', v) :: update o' k f
  end.

(** The four [+=] on a bucket.  The sums are those of the integers; the
    doubles of the source agree with them while no sum passes
    [MAX_SAFE_INTEGER]. *)
Definition bump (s : Session) (b : Stats.t) : Stats.t :=
  Stats.mk (Stats.minutes b + durationMin s) (Stats.sessions b + 1)
           (Stats.linesAdded b + linesAdded s) (Stats.files b + filesChanged s).

Record Agg := mkAgg {
  byProject : obj;
  totalMinutes : N;
  totalSessions : N;
  totalLines : N;
  totalFiles : N;
  totalActions : N
}.

Definition start : Agg := mkAgg [] 0 0 0 0 0.

(** [!s.project]: [null] and the empty string are falsy. *)
Definition falsy (p : option jsstring) : bool :=
  match p with
  | Some (_ :: _) => false
  | _ => true
  end.

(** The body of the loop over the sessions; the totals are sums of
    integers, as in [bump]. *)
Definition addSession (a : Agg) (s : Session) : Agg :=
  if falsy (project s) then a
  else
    let p := match project s with Some p => p | None => [] end in
    let o := byProject a in
    let o1 := if absent o p then create o p (Stats.mk 0 0 0 0) else o in
    mkAgg (update o1 p (bump s))
          (totalMinutes a + durationMin s)
          (totalSessions a + 1)
          (totalLines a + linesAdded s)
          (totalFiles a + filesChanged s)
          (totalActions a + ccActions s).

Definition aggregate (ss : list Session) : Agg := fold_left addSession ss start.

(** What the file system answers for the log of the day. *)
Inductive File :=
| Missing                      (* existsSync is false *)
| Unreadable                   (* readFileSync throws *)
| Text (content : jsstring).

Definition existsSync (f : File) : bool :=
  match f with
  | Missing => false
  | _ => true
  end.

(** The guarded [try] block: nothing is accumulated unless the file is
    there and can be read. *)
Definition load (f : File) : Agg :=
  if negb (existsSync f) then start
  else match f with
       | Text content => aggregate (parseProofLog content)
       | _ => start
       end.

(** *** [Object.entries] and the sort *)

(** A canonical array index: the decimal form of an integer up to 2^32-2. *)
Definition array_index (k : jsstring) : bool :=
  forallb is_digit k && str_eqb (num (parseInt k)) k
  && (parseInt k <=? 4294967294).

Section Sort.
Variable A : Type.
(** [cmp a b <= 0]: [a] may stay before [b]. *)
Variable cmp : A -> A -> Z.

Fixpoint insert (x : A) (l : list A) : list A :=
  match l with
  | [] => [x]
  | y :: l' =>
    if (cmp x y <=? 0)%Z then x :: l else y :: insert x l'
  end.

(** [Array.prototype.sort], which is stable. *)
Definition sort (l : list A) : list A := fold_right insert [] l.
End Sort.

Arguments insert {A} cmp x l.
Arguments sort {A} cmp l.

Definition entry := (jsstring * Stats.t)%type.

Definition by_index (a b : entry) : Z :=
  (Z.of_N (parseInt (fst a)) - Z.of_N (parseInt (fst b)))%Z.

(** Own keys come out with the array indices first, ascending, and then
    the other names in creation order. *)
Definition Object_entries (o : obj) : list entry :=
  sort by_index (filter (fun e => array_index (fst e)) o)
  ++ filter (fun e => negb (array_index (fst e))) o.

(** [(a, b) => b[1].minutes - a[1].minutes] *)
Definition by_minutes (a b : entry) : Z :=
  (Z.of_N (Stats.minutes (snd b)) - Z.of_N (Stats.minutes (snd a)))%Z.

(** ** Formatting *)

(** [fmtHours] on the integers: the function of the source up to
    [MAX_SAFE_INTEGER], where the division, the remainder and the digits
    are exact. *)
Definition fmtHours (min : N) : jsstring :=
  let h := min / 60 in
  let m := min mod 60 in
  if 0 <? h then num h ++ js "h " ++ num m ++ js "m" else num m ++ js "m".

(** *** [fmtHours] on doubles

    The operators of [fmtHours] as IEEE 754 binary64 has them: [min / 60]
    is rounded to 53 significant bits before [Math.floor] sees it, [%] is
    exact, and a number is printed with the shortest digits that read
    back as the same double. *)

Module Double.

(** The values a count of the program can take: a non-negative integer a
    double represents, [Infinity] ([parseInt] on a very long run of
    digits), and [NaN] ([Infinity % 60]). *)
Inductive number :=
| Finite (n : N)
| Infinity
| NaN.

(** [a / (b * 2^e)] as a fraction of integers, for [e] of either sign. *)
Definition scaled (a b : N) (e : Z) : N * N :=
  (a * 2 ^ Z.to_N (- e), b * 2 ^ Z.to_N e).

(** The binary exponent of the quotient [a / b]: the [e] that puts
    [a / (b * 2^e)] between 2^52 and 2^53. *)
Definition exponent (a b : N) : Z :=
  let e := (Z.of_N (N.log2 a) - Z.of_N (N.log2 b) - 52)%Z in
  let (n, d) := scaled a b e in
  if n / d <? 2 ^ 52 then (e - 1)%Z else e.

(** [a / b] on doubles, for integers [a] and [b > 0]: the 53-bit
    significand nearest to the quotient, ties to even, and its exponent;
    the value is [m * 2^e]. *)
Definition quotient (a b : N) : N * Z :=
  if a =? 0 then (0, 0%Z)
  else
    let e := exponent a b in
    let (n, d) := scaled a b e in
    let m := n / d in
    let r := n mod d in
    if (d <? 2 * r) || ((2 * r =? d) && N.odd m) then (m + 1, e) else (m, e).

(** [Math.floor] of [m * 2^e]. *)
Definition floor (x : N * Z) : N :=
  fst x * 2 ^ Z.to_N (snd x) / 2 ^ Z.to_N (- snd x).

(** The double nearest to an integer; past the largest double the
    rounding gives [Infinity]. *)
Definition nearest (n : N) : number :=
  let v := floor (quotient n 1) in
  if v <? 2 ^ 1024 then Finite v else Infinity.

Definition representable (n : N) : bool :=
  match nearest n with
  | Finite v => v =? n
  | _ => false
  end.

(** [Math.floor(x / d)] *)
Definition floorDiv (x : number) (d : N) : number :=
  match x with
  | Finite n => Finite (floor (quotient n d))
  | other => other
  end.

(** [x % d]: the remainder is exact; [Infinity % d] is [NaN]. *)
Definition remainder (x : number) (d : N) : number :=
  match x with
  | Finite n => Finite (n mod d)
  | _ => NaN
  end.

(** [x > 0] *)
Definition positive (x : number) : bool :=
  match x with
  | Finite n => 0 <? n
  | Infinity => true
  | NaN => false
  end.

(** *** Number to string

    The digits are those of the shortest decimal that reads back as the
    same double, the nearest to the value when several do. *)

Definition reads_as (v x : N) : bool :=
  match nearest v with
  | Finite y => y =? x
  | _ => false
  end.

Definition dist (a b : N) : N := if a <? b then b - a else a - b.

(** The decimal with [k] significant digits for [x], a number of [n]
    digits: [x] cut after [k] digits, or the next one up. *)
Definition candidate (x : N) (n k : nat) : option N :=
  let u := 10 ^ N.of_nat (n - k) in
  let lo := x / u * u in
  let hi := (x / u + 1) * u in
  match reads_as lo x, reads_as hi x with
  | true, true =>
    if dist lo x <? dist hi x then Some lo
    else if dist hi x <? dist lo x then Some hi
    else if N.even (x / u) then Some lo else Some hi
  | true, false => Some lo
  | false, true => Some hi
  | false, false => None
  end.

Fixpoint shortest (x : N) (n : nat) (ks : list nat) : N :=
  match ks with
  | [] => x
  | k :: ks' =>
    match candidate x n k with
    | Some v => v
    | None => shortest x n ks'
    end
  end.

Definition shortestDecimal (x : N) : N :=
  let n := List.length (num x) in shortest x n (seq 1 n).

Fixpoint dropZeros (s : jsstring) : jsstring :=
  match s with
  | 48 :: s' => dropZeros s'
  | _ => s
  end.

(** The significant digits: the numeral without its trailing zeros. *)
Definition significant (s : jsstring) : jsstring := rev (dropZeros (rev s)).

(** [`${x}`]: plain digits up to 21 of them, exponent form beyond. *)
Definition toString (x : number) : jsstring :=
  match x with
  | NaN => js "NaN"
  | Infinity => js "Infinity"
  | Finite x =>
    let v := shortestDecimal x in
    let s := num v in
    let n := List.length s in
    if v <? 10 ^ 21 then s
    else
      match significant s with
      | [] => s
      | [d] => d :: js "e+" ++ num (N.of_nat (n - 1))
      | d :: more => d :: js "." ++ more ++ js "e+" ++ num (N.of_nat (n - 1))
      end
  end.

Definition fmtHours (min : number) : jsstring :=
  let h := floorDiv min 60 in
  let m := remainder min 60 in
  if positive h then toString h ++ js "h " ++ toString m ++ js "m"
  else toString m ++ js "m".

End Double.

Definition nl : jsstring := [0x0A].

(** The module-level bindings the formatters read. *)
Record Day := mkDay {
  targetDate : jsstring;
  label : jsstring;
  isGhostDay : bool;
  totals : Agg;
  sortedProjects : list entry
}.

(** [isGhostDay || totalSessions === 0], the test on which the three
    formatters branch. *)
Definition ghostFlag (d : Day) : bool :=
  isGhostDay d || (totalSessions (totals d) =? 0).

Section Formatters.
(** [Number.prototype.toLocaleString] of the host. *)
Variable toLocaleString : N -> jsstring.
(** [(n / 1000).toFixed(1)]. *)
Variable toFixed1K : N -> jsstring.

Variable d : Day.

Definition plainItem (e : entry) : jsstring :=
  let '(proj, stats) := e in
  let parts :=
    [fmtHours (Stats.minutes stats)]
    ++ (if 0 <? Stats.sessions stats
        then [num (Stats.sessions stats) ++ js " sessions"] else [])
    ++ (if 0 <? Stats.linesAdded stats
        then [js "+" ++ toLocaleString (Stats.linesAdded stats) ++ js " lines"]
        else []) in
  js "  • " ++ proj ++ js " — " ++ join (js " | ") parts.

(** The [lines] array of [formatPlain]. *)
Definition plainLines : list jsstring :=
  [js "📋 AI Standup — " ++ label d; []]
  ++ (if ghostFlag d then
        [js "👻 Ghost Day — AI worked autonomously. No sessions logged."; []]
      else
        [js "✅ Yesterday's work:"]
        ++ map plainItem (sortedProjects d)
        ++ [[]]
        ++ (let totalParts :=
              [fmtHours (totalMinutes (totals d));
               num (totalSessions (totals d)) ++ js " sessions";
               js "+" ++ toLocaleString (totalLines (totals d)) ++ js " lines"]
              ++ (if 0 <? totalFiles (totals d)
                  then [num (totalFiles (totals d)) ++ js " files"] else []) in
            [js "📊 Total: " ++ join (js " | ") totalParts; []]))
  ++ (if (0 <? List.length (sortedProjects d))%nat then
        [js "🔜 Continuing: "
         ++ join (js ", ") (map fst (sortedProjects d)); []]
      else [])
  ++ [js "Generated by cc-standup"].

Definition formatPlain : jsstring := join nl plainLines.

Definition slackItem (e : entry) : jsstring :=
  let '(proj, stats) := e in
  let parts :=
    [fmtHours (Stats.minutes stats)]
    ++ (if 0 <? Stats.linesAdded stats
        then [js "+" ++ toLocaleString (Stats.linesAdded stats) ++ js " lines"]
        else []) in
  js "• `" ++ proj ++ js "` — " ++ join (js ", ") parts.

(** The [lines] array of [formatSlack]. *)
Definition slackLines : list jsstring :=
  [js "*AI Standup — " ++ label d ++ js "*"; []]
  ++ (if ghostFlag d then
        [js "👻 *Ghost Day* — AI worked autonomously. No sessions logged."]
      else
        [js "✅ *Yesterday's work:*"]
        ++ map slackItem (sortedProjects d)
        ++ [[]]
        ++ [js "📊 *Total:* " ++ fmtHours (totalMinutes (totals d))
            ++ js " | " ++ num (totalSessions (totals d))
            ++ js " sessions | +"
            ++ toLocaleString (totalLines (totals d)) ++ js " lines"]
        ++ (if (0 <? List.length (sortedProjects d))%nat then
              [js "🔜 *Continuing:* "
               ++ join (js ", ")
                    (map (fun e => js "`" ++ fst e ++ js "`")
                         (sortedProjects d))]
            else [])).

Definition formatSlack : jsstring := join nl slackLines.

Definition tweetItem (e : entry) : jsstring :=
  let '(proj, stats) := e in
  js "✅ " ++ proj ++ js ": " ++ fmtHours (Stats.minutes stats)
  ++ (if 0 <? Stats.linesAdded stats
      then js " (+" ++ toFixed1K (Stats.linesAdded stats) ++ js "K lines)"
      else []).

(** The [parts] array of [formatTweet]. *)
Definition tweetParts : list jsstring :=
  if ghostFlag d then
    [js "AI Standup " ++ skipn 5 (targetDate d) ++ js " 👻";
     js "Ghost Day — AI ran autonomously";
     js "#claudecode"]
  else
    [js "AI Standup " ++ skipn 5 (targetDate d) ++ js " 🤖"]
    ++ map tweetItem (firstn 3 (sortedProjects d))
    ++ [[];
        js "Total: " ++ fmtHours (totalMinutes (totals d)) ++ js " | "
        ++ num (totalSessions (totals d)) ++ js " sessions";
        js "#claudecode #aidev"].

Definition formatTweet : jsstring :=
  let tweet := join nl tweetParts in
  if (280 <? List.length tweet)%nat then firstn 277 tweet ++ js "..."
  else tweet.

(** The [switch] on [--format]. *)
Definition render (outputFormat : jsstring) : jsstring :=
  if str_eqb outputFormat (js "slack") then formatSlack
  else if str_eqb outputFormat (js "tweet") then formatTweet
  else formatPlain.
End Formatters.

(** ** The whole run *)

Section Run.
Variable toLocaleString : N -> jsstring.
Variable toFixed1K : N -> jsstring.
(** [dayOfWeek]: the weekday name the host's [Date] gives. *)
Variable dayOfWeek : jsstring -> jsstring.

(** The bindings as the module computes them for a date and a file. *)
Definition day (date : jsstring) (file : File) : Day :=
  let a := load file in
  mkDay date
        (date ++ js " (" ++ dayOfWeek date ++ js ")")
        (negb (existsSync file))
        a
        (sort by_minutes (Object_entries (byProject a))).

Definition output (outputFormat date : jsstring) (file : File) : jsstring :=
  render toLocaleString toFixed1K (day date file) outputFormat.
End Run.


(** ** Notions the statements use *)

Definition matches (r : regex) (line : jsstring) : bool :=
  match exec r line with
  | Some _ => true
  | None => false
  end.

(** The lines of the input as the loop sees them. *)
Definition trimmedLines (content : jsstring) : list jsstring :=
  map trim (split 0x0A content).


(** The lines of a block: up to the next header or the end of the input. *)
Fixpoint body (ls : list jsstring) : list jsstring :=
  match ls with
  | [] => []
  | l :: ls' => if matches SESSION_HEADER l then [] else l :: body ls'
  end.

(** The session blocks of a list of trimmed lines: a header line and the
    lines that follow it. *)
Fixpoint blocks (ls : list jsstring) : list (jsstring * list jsstring) :=
  match ls with
  | [] => []
  | l :: ls' =>
    if matches SESSION_HEADER l then (l, body ls') :: blocks ls'
    else blocks ls'
  end.

Definition headerDate (h : jsstring) : jsstring :=
  match exec SESSION_HEADER h with
  | Some m => grp m 1
  | None => []
  end.

(** The field lines of a block applied in order to a session. *)
Definition fields (b : list jsstring) (s : Session) : Session :=
  fold_left (fun s l => field l s) b s.

Definition sessionOf (blk : jsstring * list jsstring) : Session :=
  fields (snd blk) (newSession (headerDate (fst blk))).

(** The match of the last line of a block that a pattern matches. *)
Fixpoint lastMatch (r : regex) (b : list jsstring) : option (list jsstring) :=
  match b with
  | [] => None
  | l :: b' =>
    match lastMatch r b' with
    | Some m => Some m
    | None => exec r l
    end
  end.

Definition noMatch (r : regex) (b : list jsstring) : Prop :=
  forall l, In l b -> matches r l = false.

(** C6 for one block and its session. *)
Definition defaultsUnlessMatched (blk : jsstring * list jsstring)
           (s : Session) : Prop :=
  (noMatch DURATION_LINE (snd blk) -> durationMin s = 0)
  /\ (noMatch WHERE_LINE (snd blk) -> project s = None)
  /\ (noMatch WHO_LINE (snd blk) -> ccActions s = 0)
  /\ (noMatch WHAT_LINE (snd blk) ->
      filesChanged s = 0 /\ linesAdded s = 0 /\ linesRemoved s = 0)
  /\ (noMatch DURATION_LINE (snd blk) -> noMatch WHERE_LINE (snd blk) ->
      noMatch WHO_LINE (snd blk) -> noMatch WHAT_LINE (snd blk) ->
      s = newSession (headerDate (fst blk))).

(** C10 for one block and its session: [l] is a line of the block that
    matches a pattern and no later line of the block matches it. *)
Definition lastLineWins (blk : jsstring * list jsstring) (s : Session) : Prop :=
  forall b1 l b2 m, snd blk = b1 ++ l :: b2 ->
    (exec DURATION_LINE l = Some m -> noMatch DURATION_LINE b2 ->
     durationMin s = parseInt (grp m 1))
    /\ (exec WHERE_LINE l = Some m -> noMatch WHERE_LINE b2 ->
        project s = Some (trim (grp m 1)))
    /\ (exec WHO_LINE l = Some m -> noMatch WHO_LINE b2 ->
        ccActions s = parseInt (grp m 1))
    /\ (exec WHAT_LINE l = Some m -> noMatch WHAT_LINE b2 ->
        filesChanged s = parseInt (grp m 1)
        /\ linesAdded s = parseInt (grp m 2)
        /\ linesRemoved s = parseInt (grp m 3)).

(** A string without a line feed: one line of a file. *)
Definition oneLine (l : jsstring) : bool := negb (existsb (N.eqb 0x0A) l).

Definition third (l : jsstring) : N := nth 2 l 0.

(** A session the aggregation keeps: its project is not absent. *)
Definition retained (s : Session) : bool :=
  match project s with
  | Some _ => true
  | None => false
  end.

Definition projectOf (s : Session) : jsstring :=
  match project s with
  | Some p => p
  | None => []
  end.

Definition sumN (l : list N) : N := fold_right N.add 0 l.

(** The sum of a field over the buckets. *)
Definition sumBy (g : Stats.t -> N) (es : list entry) : N :=
  sumN (map (fun e => g (snd e)) es).

(** The sessions a log file gives: none when it is missing or cannot be
    read. *)
Definition sessionsOf (f : File) : list Session :=
  match f with
  | Text content => parseProofLog content
  | _ => []
  end.


(** The distinct names of a list, each at its first occurrence. *)
Fixpoint dedup (l : list jsstring) : list jsstring :=
  match l with
  | [] => []
  | x :: l' => x :: filter (fun y => negb (str_eqb y x)) (dedup l')
  end.

(** The projects that get a bucket, in the order in which the sessions
    first name them. *)
Definition firstSeen (ss : list Session) : list jsstring :=
  dedup (filter (fun p => negb (inherited p))
                (map projectOf (filter retained ss))).

(** The entries whose bucket holds [m] minutes. *)
Definition tied (m : N) (e : entry) : bool := Stats.minutes (snd e) =? m.

(** [sp] keeps entries of equal minutes in the relative order they have
    in [ref]. *)
Definition tiesKeep (ref sp : list entry) : Prop :=
  forall m, filter (tied m) sp = filter (tied m) ref.

Definition descending (x y : entry) : Prop :=
  Stats.minutes (snd y) <= Stats.minutes (snd x).

(** The array-index names of the buckets, as [Object.entries] orders
    them. *)
Definition ascending (x y : entry) : Prop :=
  parseInt (fst x) <= parseInt (fst y).

(** *** Sample logs *)

(** One session, of 90 minutes, in a project called [constructor]. *)
Definition log_constructor : jsstring := js
"### 2026-02-27 09:00-10:30 JST
- いつ: 2026-02-27 09:00 JST〜10:30 JST（90分）
- どこで: constructor
- 何を: 3ファイル変更 (+120/-5)
".

(** Two sessions of ten minutes each: first project [alpha], then
    project [2024]. *)
Definition log_index : jsstring := js
"### 2026-02-27 09:00-09:10 JST
- いつ: 2026-02-27 09:00 JST〜09:10 JST（10分）
- どこで: alpha
### 2026-02-27 10:00-10:10 JST
- いつ: 2026-02-27 10:00 JST〜10:10 JST（10分）
- どこで: 2024
".

(** Scenario 3 of the specification with a tie added: [beta] has more
    minutes than [alpha] and [gamma], which have the same. *)
Definition log_three : jsstring := js
"notes before the first header
### 2026-02-27 09:00-09:30 JST
- いつ: 2026-02-27 09:00 JST〜09:30 JST（30分）
- どこで: alpha
- 誰が: CC: 7件
- 何を: 3ファイル変更 (+120/-5)
### 2026-02-27 10:00-11:30 JST
- いつ: 2026-02-27 10:00 JST〜11:30 JST（90分）
- どこで: beta
- どこで:   beta2
- 誰が: CC: seven件
### 2026-02-27 12:00-12:30 JST
- いつ: 2026-02-27 12:00 JST〜12:30 JST（30分）
- どこで: gamma
### 2026-02-27 13:00-13:30 JST
".




(** A report with three projects of a hundred letters each. *)
Definition day_long : Day :=
  mkDay (js "2026-02-27") (js "2026-02-27 (Fri)") false
        (mkAgg [] 180 3 0 0 0)
        [(repeat 97 100, Stats.mk 90 1 15000 2);
         (repeat 98 100, Stats.mk 60 1 0 1);
         (repeat 99 100, Stats.mk 30 1 0 1)].

(** The names of the buckets after one more retained session of
    project [p]. *)
Definition addKey (ks : list jsstring) (p : jsstring) : list jsstring :=
  if existsb (str_eqb p) ks || inherited p then ks else ks ++ [p].

(** Scenario 2 of the specification. *)
Definition log_alpha : jsstring := js
"### 2026-02-27 09:00-10:30 JST
- いつ: 2026-02-27 09:00 JST〜10:30 JST（90分）
- どこで: alpha
- 誰が: CC: 7件
- 何を: 3ファイル変更 (+120/-5)".

Definition Fri (date : jsstring) : jsstring := js "Fri".

(** *** Notions for the further properties *)

(** The shape [\d{4}-\d{2}-\d{2}] of the first group of a header. *)
Definition isoDateShape (d : jsstring) : bool :=
  match d with
  | [y1; y2; y3; y4; h1; m1; m2; h2; d1; d2] =>
    is_digit y1 && is_digit y2 && is_digit y3 && is_digit y4
    && (h1 =? 45) && is_digit m1 && is_digit m2
    && (h2 =? 45) && is_digit d1 && is_digit d2
  | _ => false
  end.

(** The shape [\d{2}:\d{2}] of the two times of a header. *)
Definition timeShape (t : jsstring) : bool :=
  match t with
  | [h1; h2; c; m1; m2] =>
    is_digit h1 && is_digit h2 && (c =? 58) && is_digit m1 && is_digit m2
  | _ => false
  end.

(** A text [.+] can take: no line terminator in it. *)
Definition dots (s : jsstring) : bool := forallb (accepts Dot) s.

(** The five patterns, in the order in which the loop tries them. *)
Definition patterns : list regex :=
  [SESSION_HEADER; DURATION_LINE; WHERE_LINE; WHO_LINE; WHAT_LINE].

(** The sessions of project [p]. *)
Definition sessionsIn (p : jsstring) (ss : list Session) : list Session :=
  filter (fun s => str_eqb (projectOf s) p) ss.

(** The bucket the sessions of project [p] call for: none without a
    session, else their sums. *)
Definition bucketOf (p : jsstring) (ss : list Session) : option Stats.t :=
  match sessionsIn p ss with
  | [] => None
  | mine =>
    Some (Stats.mk (sumN (map durationMin mine))
                   (N.of_nat (List.length mine))
                   (sumN (map linesAdded mine))
                   (sumN (map filesChanged mine)))
  end.

(** Two sessions the aggregation cannot tell apart: they agree on the
    project, the minutes, the added lines and the files. *)
Definition sameForReport (s s' : Session) : Prop :=
  project s = project s' /\ durationMin s = durationMin s'
  /\ linesAdded s = linesAdded s' /\ filesChanged s = filesChanged s'.

(** The bindings for a list of sessions read from a file that exists. *)
Definition dayOfSessions (date lbl : jsstring) (ss : list Session) : Day :=
  mkDay date lbl false (aggregate ss)
        (sort by_minutes (Object_entries (byProject (aggregate ss)))).

(** The header line of a block and its four field lines, as the
    patterns expect them, for given values. *)
Definition headerText (d t1 t2 : jsstring) : jsstring :=
  js "### " ++ d ++ js " " ++ t1 ++ js "-" ++ t2 ++ js " JST".

Definition fieldTexts (span p : jsstring) (n a f la lr : N) : list jsstring :=
  [js "- いつ: " ++ span ++ js "JST（" ++ num n ++ js "分）";
   js "- どこで: " ++ p;
   js "- 誰が: CC: " ++ num a ++ js "件";
   js "- 何を: " ++ num f ++ js "ファイル変更 (+" ++ num la
     ++ js "/-" ++ num lr ++ js ")"].

(** The four field lines one by one. *)
Definition whenText (span : jsstring) (n : N) : jsstring :=
  js "- いつ: " ++ span ++ js "JST（" ++ num n ++ js "分）".

Definition whereText (p : jsstring) : jsstring := js "- どこで: " ++ p.

Definition whoText (a : N) : jsstring := js "- 誰が: CC: " ++ num a ++ js "件".

Definition whatText (f la lr : N) : jsstring :=
  js "- 何を: " ++ num f ++ js "ファイル変更 (+" ++ num la
  ++ js "/-" ++ num lr ++ js ")".

(** A text [trim] leaves alone and [.+] can take. *)
Definition plainText (p : jsstring) : bool :=
  negb (is_ws (hd 0x20 p)) && negb (is_ws (last p 0x20)) && dots p.

(** A list of lines that is empty or begins with a header line. *)
Definition startsBlock (ls : list jsstring) : Prop :=
  match ls with
  | [] => True
  | h :: _ => matches SESSION_HEADER h = true
  end.

(** A bucket after some more sessions of its project. *)
Definition grown (v : Stats.t) (mine : list Session) : Stats.t :=
  Stats.mk (Stats.minutes v + sumN (map durationMin mine))
           (Stats.sessions v + N.of_nat (List.length mine))
           (Stats.linesAdded v + sumN (map linesAdded mine))
           (Stats.files v + sumN (map filesChanged mine)).

Definition orZero (v : option Stats.t) : Stats.t :=
  match v with
  | Some b => b
  | None => Stats.mk 0 0 0 0
  end.

(** Sessions of three projects, one of them without a project and one
    with a name that [byProject] inherits. *)
Definition sessions_ab : list Session :=
  [mkSession (js "2026-02-27") 45 (Some (js "alpha")) 2 1 10 0;
   mkSession (js "2026-02-27") 30 (Some (js "beta")) 0 2 20 4;
   mkSession (js "2026-02-27") 0 None 9 9 9 9;
   mkSession (js "2026-02-27") 15 (Some (js "beta")) 1 0 0 0;
   mkSession (js "2026-02-27") 60 (Some (js "toString")) 1 1 1 1;
   mkSession (js "2026-02-27") 5 (Some (js "beta")) 3 4 5 6].

(** Two states of the loop the formatters cannot tell apart: all but
    [totalActions], which no formatter reads. *)
Definition sameReport (a a' : Agg) : Prop :=
  byProject a = byProject a' /\ totalMinutes a = totalMinutes a'
  /\ totalSessions a = totalSessions a' /\ totalLines a = totalLines a'
  /\ totalFiles a = totalFiles a'.

(** A session with its date, its action count and its removed lines
    blanked. *)
Definition blanked (s : Session) : Session :=
  mkSession [] (durationMin s) (project s) 0 (filesChanged s)
            (linesAdded s) 0.

(** No retained session of the file has a project name that [byProject]
    inherits. *)
Definition noInheritedName (f : File) : bool :=
  forallb (fun s => negb (retained s) || negb (inherited (projectOf s)))
          (sessionsOf f).

(** A bucket, and the grand totals, within the exact range. *)
Definition safeBucket (v : option Stats.t) : bool :=
  match v with
  | None => true
  | Some b =>
    safe (Stats.minutes b) && safe (Stats.sessions b)
    && safe (Stats.linesAdded b) && safe (Stats.files b)
  end.

Definition safeTotals (a : Agg) : bool :=
  safe (totalMinutes a) && safe (totalSessions a)
  && safe (totalLines a) && safe (totalFiles a).

(** ** The parser: one session per header *)

Arguments exec : simpl never.
Arguments trim : simpl never.

Lemma fields_app (b1 b2 : list jsstring) (s : Session) :
  fields (b1 ++ b2) s = fields b2 (fields b1 s).
Proof. unfold fields. apply fold_left_app. Qed.

Lemma step_header (ss : list Session) (cur : option Session) (raw : jsstring) :
  matches SESSION_HEADER (trim raw) = true ->
  step (ss, cur) raw =
  (match cur with Some c => ss ++ [c] | None => ss end,
   Some (newSession (headerDate (trim raw)))).
Proof.
  unfold matches, step, headerDate.
  destruct (exec SESSION_HEADER (trim raw)); [reflexivity | discriminate].
Qed.

Lemma step_other (ss : list Session) (cur : option Session) (raw : jsstring) :
  matches SESSION_HEADER (trim raw) = false ->
  step (ss, cur) raw =
  (ss, match cur with Some c => Some (field (trim raw) c) | None => None end).
Proof.
  unfold matches, step.
  destruct (exec SESSION_HEADER (trim raw)); [discriminate |].
  destruct cur; reflexivity.
Qed.

(** The loop, from any state: the sessions already pushed, the open one
    completed by the rest of its block, and one session per later block. *)
Lemma loop_blocks (raws : list jsstring) :
  forall ss cur,
    finish (fold_left step raws (ss, cur)) =
    ss ++ match cur with
          | Some c => [fields (body (map trim raws)) c]
          | None => []
          end
       ++ map sessionOf (blocks (map trim raws)).
Proof.
  induction raws as [|raw raws IH]; intros ss cur.
  - destruct cur; simpl; now rewrite ?app_nil_r.
  - cbn [fold_left map body blocks].
    destruct (matches SESSION_HEADER (trim raw)) eqn:Hh.
    + rewrite (step_header _ _ _ Hh), IH.
      destruct cur; cbn [map sessionOf fst snd fields fold_left];
        rewrite <- ?app_assoc; reflexivity.
    + rewrite (step_other _ _ _ Hh), IH.
      destruct cur; reflexivity.
Qed.

Lemma parseLines_blocks (raws : list jsstring) :
  parseLines raws = map sessionOf (blocks (map trim raws)).
Proof. unfold parseLines. now rewrite loop_blocks. Qed.

Lemma blocks_length (ls : list jsstring) :
  List.length (blocks ls) = List.length (filter (matches SESSION_HEADER) ls).
Proof.
  induction ls as [|l ls IH]; [reflexivity |].
  cbn [blocks filter].
  destruct (matches SESSION_HEADER l); cbn [List.length]; now rewrite IH.
Qed.

(** C1.  The parser returns as many sessions as there are trimmed lines
    matching the header pattern, and they are the sessions of the blocks
    those headers open: a header closes the block before it, and the end
    of the input closes the last one. *)
Theorem parse_one_session_per_header (content : jsstring) :
  List.length (parseProofLog content)
  = List.length (filter (matches SESSION_HEADER) (trimmedLines content))
  /\ parseProofLog content = map sessionOf (blocks (trimmedLines content)).
Proof.
  unfold parseProofLog, trimmedLines.
  rewrite parseLines_blocks, length_map, blocks_length.
  split; reflexivity.
Qed.

(** ** The patterns exclude one another *)

Lemma run_lit (p : jsstring) (r : regex) :
  forall s caps m,
    run (map (fun c => Chr (Lit c)) p ++ r) s None caps = Some m ->
    exists s', s = p ++ s' /\ run r s' None caps = Some m.
Proof.
  induction p as [|c p IH]; intros s caps m H.
  - exists s. split; [reflexivity | exact H].
  - cbn [map app run] in H.
    destruct s as [|x s]; [discriminate |].
    cbn [accepts] in H.
    destruct (x =? c) eqn:E; [| discriminate].
    apply N.eqb_eq in E. subst x.
    cbn [push] in H.
    destruct (IH _ _ _ H) as [s' [-> H']].
    exists s'. split; [reflexivity | exact H'].
Qed.

Lemma exec_lit (p : string) (r : regex) (l : jsstring) (m : list jsstring) :
  exec (lit p ++ r) l = Some m -> exists l', l = js p ++ l'.
Proof.
  unfold exec, lit. intros H.
  destruct (run_lit _ _ _ _ _ H) as [l' [-> _]]. now exists l'.
Qed.

Ltac third_unit H :=
  unfold matches in H;
  match type of H with
  | context [exec ?R ?l] =>
    let E := fresh "E" in
    destruct (exec R l) eqn:E; [| discriminate];
    apply exec_lit in E; destruct E as [? ->]; reflexivity
  end.

Lemma third_header (l : jsstring) :
  matches SESSION_HEADER l = true -> third l = 35.
Proof. intros H. third_unit H. Qed.

Lemma third_duration (l : jsstring) :
  matches DURATION_LINE l = true -> third l = 0x3044.
Proof. intros H. third_unit H. Qed.

Lemma third_where (l : jsstring) :
  matches WHERE_LINE l = true -> third l = 0x3069.
Proof. intros H. third_unit H. Qed.

Lemma third_who (l : jsstring) :
  matches WHO_LINE l = true -> third l = 0x8AB0.
Proof. intros H. third_unit H. Qed.

Lemma third_what (l : jsstring) :
  matches WHAT_LINE l = true -> third l = 0x4F55.
Proof. intros H. third_unit H. Qed.

Lemma matches_exec (r : regex) (l : jsstring) (m : list jsstring) :
  exec r l = Some m -> matches r l = true.
Proof. unfold matches. now intros ->. Qed.

Lemma not_matches_exec (r : regex) (l : jsstring) :
  matches r l = false -> exec r l = None.
Proof. unfold matches. now destruct (exec r l). Qed.

(** Two patterns whose lines differ in their third unit cannot both
    match. *)
Ltac clash Ha Hb :=
  first [ apply third_header in Ha | apply third_duration in Ha
        | apply third_where in Ha | apply third_who in Ha
        | apply third_what in Ha ];
  first [ apply third_header in Hb | apply third_duration in Hb
        | apply third_where in Hb | apply third_who in Hb
        | apply third_what in Hb ];
  rewrite Ha in Hb; discriminate.

Lemma where_only (l : jsstring) :
  matches WHERE_LINE l = true -> matches DURATION_LINE l = false.
Proof.
  intros Ha. destruct (matches DURATION_LINE l) eqn:Hb; [clash Ha Hb | easy].
Qed.

Lemma who_only (l : jsstring) :
  matches WHO_LINE l = true ->
  matches DURATION_LINE l = false /\ matches WHERE_LINE l = false.
Proof.
  intros Ha. split.
  - destruct (matches DURATION_LINE l) eqn:Hb; [clash Ha Hb | easy].
  - destruct (matches WHERE_LINE l) eqn:Hb; [clash Ha Hb | easy].
Qed.

Lemma what_only (l : jsstring) :
  matches WHAT_LINE l = true ->
  matches DURATION_LINE l = false /\ matches WHERE_LINE l = false
  /\ matches WHO_LINE l = false.
Proof.
  intros Ha. repeat split.
  - destruct (matches DURATION_LINE l) eqn:Hb; [clash Ha Hb | easy].
  - destruct (matches WHERE_LINE l) eqn:Hb; [clash Ha Hb | easy].
  - destruct (matches WHO_LINE l) eqn:Hb; [clash Ha Hb | easy].
Qed.

(** ** What one field line does, and what a block does *)

Ltac field_cases l :=
  unfold field;
  destruct (exec DURATION_LINE l) eqn:Ed;
  destruct (exec WHERE_LINE l) eqn:Ewh;
  destruct (exec WHO_LINE l) eqn:Ewo;
  destruct (exec WHAT_LINE l) eqn:Ewa;
  try reflexivity;
  repeat match goal with
         | H : exec _ l = Some _ |- _ => apply matches_exec in H
         end.

Lemma field_date (l : jsstring) (s : Session) : date (field l s) = date s.
Proof. field_cases l. Qed.

Lemma field_durationMin (l : jsstring) (s : Session) :
  durationMin (field l s) =
  match exec DURATION_LINE l with
  | Some m => parseInt (grp m 1)
  | None => durationMin s
  end.
Proof. field_cases l. Qed.

Lemma field_project (l : jsstring) (s : Session) :
  project (field l s) =
  match exec WHERE_LINE l with
  | Some m => Some (trim (grp m 1))
  | None => project s
  end.
Proof. field_cases l; apply where_only in Ewh; congruence. Qed.

Lemma field_ccActions (l : jsstring) (s : Session) :
  ccActions (field l s) =
  match exec WHO_LINE l with
  | Some m => parseInt (grp m 1)
  | None => ccActions s
  end.
Proof. field_cases l; apply who_only in Ewo; destruct Ewo; congruence. Qed.

Lemma field_filesChanged (l : jsstring) (s : Session) :
  filesChanged (field l s) =
  match exec WHAT_LINE l with
  | Some m => parseInt (grp m 1)
  | None => filesChanged s
  end.
Proof.
  field_cases l; apply what_only in Ewa; destruct Ewa as [? [? ?]]; congruence.
Qed.

Lemma field_linesAdded (l : jsstring) (s : Session) :
  linesAdded (field l s) =
  match exec WHAT_LINE l with
  | Some m => parseInt (grp m 2)
  | None => linesAdded s
  end.
Proof.
  field_cases l; apply what_only in Ewa; destruct Ewa as [? [? ?]]; congruence.
Qed.

Lemma field_linesRemoved (l : jsstring) (s : Session) :
  linesRemoved (field l s) =
  match exec WHAT_LINE l with
  | Some m => parseInt (grp m 3)
  | None => linesRemoved s
  end.
Proof.
  field_cases l; apply what_only in Ewa; destruct Ewa as [? [? ?]]; congruence.
Qed.

Section LastMatch.
Variable T : Type.
Variable get : Session -> T.
Variable r : regex.
Variable val : list jsstring -> T.
Hypothesis one : forall l s,
  get (field l s) = match exec r l with Some m => val m | None => get s end.

(** A field of the session of a block: the value of the last line that
    matches its pattern, or what the field held before the block. *)
Lemma fields_lastMatch (b : list jsstring) :
  forall s,
    get (fields b s) =
    match lastMatch r b with Some m => val m | None => get s end.
Proof.
  induction b as [|l b IH]; intros s; [reflexivity |].
  change (fields (l :: b) s) with (fields b (field l s)).
  rewrite IH. cbn [lastMatch].
  destruct (lastMatch r b); [reflexivity | apply one].
Qed.
End LastMatch.

Lemma lastMatch_none (r : regex) (b : list jsstring) :
  noMatch r b -> lastMatch r b = None.
Proof.
  induction b as [|l b IH]; intros H; [reflexivity |].
  cbn [lastMatch]. rewrite IH.
  - apply not_matches_exec, H. now left.
  - intros l' Hl'. apply H. now right.
Qed.

Lemma lastMatch_last (r : regex) (b1 b2 : list jsstring) (l : jsstring)
      (m : list jsstring) :
  exec r l = Some m -> noMatch r b2 -> lastMatch r (b1 ++ l :: b2) = Some m.
Proof.
  intros Hl Hb2.
  induction b1 as [|l1 b1 IH]; cbn [app lastMatch].
  - now rewrite (lastMatch_none _ _ Hb2).
  - now rewrite IH.
Qed.

Lemma fields_date (b : list jsstring) :
  forall s, date (fields b s) = date s.
Proof.
  induction b as [|l b IH]; intros s; [reflexivity |].
  change (fields (l :: b) s) with (fields b (field l s)).
  now rewrite IH, field_date.
Qed.

Lemma sessionOf_defaults (blk : jsstring * list jsstring) :
  defaultsUnlessMatched blk (sessionOf blk).
Proof.
  destruct blk as [h b]. unfold defaultsUnlessMatched, sessionOf.
  cbn [fst snd].
  assert (Hd : noMatch DURATION_LINE b ->
               durationMin (fields b (newSession (headerDate h))) = 0).
  { intros H. now rewrite (fields_lastMatch _ _ _ _ field_durationMin),
                (lastMatch_none _ _ H). }
  assert (Hp : noMatch WHERE_LINE b ->
               project (fields b (newSession (headerDate h))) = None).
  { intros H. now rewrite (fields_lastMatch _ _ _ _ field_project),
                (lastMatch_none _ _ H). }
  assert (Hc : noMatch WHO_LINE b ->
               ccActions (fields b (newSession (headerDate h))) = 0).
  { intros H. now rewrite (fields_lastMatch _ _ _ _ field_ccActions),
                (lastMatch_none _ _ H). }
  assert (Hw : noMatch WHAT_LINE b ->
               filesChanged (fields b (newSession (headerDate h))) = 0
               /\ linesAdded (fields b (newSession (headerDate h))) = 0
               /\ linesRemoved (fields b (newSession (headerDate h))) = 0).
  { intros H.
    rewrite (fields_lastMatch _ _ _ _ field_filesChanged),
            (fields_lastMatch _ _ _ _ field_linesAdded),
            (fields_lastMatch _ _ _ _ field_linesRemoved),
            (lastMatch_none _ _ H).
    repeat split. }
  repeat split; try tauto.
  intros H1 H2 H3 H4.
  specialize (Hd H1). specialize (Hp H2). specialize (Hc H3).
  destruct (Hw H4) as [Hf [Ha Hr]].
  pose proof (fields_date b (newSession (headerDate h))) as Hdate.
  destruct (fields b (newSession (headerDate h))).
  cbn in *. unfold newSession. congruence.
Qed.

Lemma sessionOf_lastLineWins (blk : jsstring * list jsstring) :
  lastLineWins blk (sessionOf blk).
Proof.
  destruct blk as [h b]. unfold lastLineWins, sessionOf. cbn [fst snd].
  intros b1 l b2 m ->.
  split; [| split; [| split]]; intros Hl Hb2.
  - now rewrite (fields_lastMatch _ _ _ _ field_durationMin),
                (lastMatch_last _ _ _ _ _ Hl Hb2).
  - now rewrite (fields_lastMatch _ _ _ _ field_project),
                (lastMatch_last _ _ _ _ _ Hl Hb2).
  - now rewrite (fields_lastMatch _ _ _ _ field_ccActions),
                (lastMatch_last _ _ _ _ _ Hl Hb2).
  - rewrite (fields_lastMatch _ _ _ _ field_filesChanged),
            (fields_lastMatch _ _ _ _ field_linesAdded),
            (fields_lastMatch _ _ _ _ field_linesRemoved),
            (lastMatch_last _ _ _ _ _ Hl Hb2).
    repeat split.
Qed.

Lemma Forall2_map_self (A B : Type) (P : A -> B -> Prop) (f : A -> B)
      (l : list A) :
  (forall x, P x (f x)) -> Forall2 P l (map f l).
Proof. intros H. induction l; constructor; auto. Qed.

(** C6.  Block by block, a numeric field of the session is zero and the
    project is absent unless a line of the block matches the pattern of
    that field; a block without any field line gives the fresh session of
    its header. *)
Theorem fields_default_unless_matched (content : jsstring) :
  Forall2 defaultsUnlessMatched
          (blocks (trimmedLines content)) (parseProofLog content).
Proof.
  unfold parseProofLog, trimmedLines. rewrite parseLines_blocks.
  apply Forall2_map_self, sessionOf_defaults.
Qed.

(** C10.  Block by block, when several lines match the pattern of a
    field the session carries the value of the last of them. *)
Theorem last_matching_line_wins (content : jsstring) :
  Forall2 lastLineWins
          (blocks (trimmedLines content)) (parseProofLog content).
Proof.
  unfold parseProofLog, trimmedLines. rewrite parseLines_blocks.
  apply Forall2_map_self, sessionOf_lastLineWins.
Qed.

(** ** Lines that are ignored *)

Lemma split_oneLine (p : jsstring) :
  oneLine p = true -> split 0x0A p = [p].
Proof.
  unfold oneLine. induction p as [|c p IH]; [reflexivity |].
  cbn [existsb split]. rewrite negb_orb, andb_true_iff. intros [Hc Hp].
  rewrite N.eqb_sym in Hc. destruct (c =? 0x0A); [discriminate |].
  now rewrite (IH Hp).
Qed.

Lemma split_app_nl (p s : jsstring) :
  oneLine p = true -> split 0x0A (p ++ nl ++ s) = p :: split 0x0A s.
Proof.
  unfold oneLine. induction p as [|c p IH]; [reflexivity |].
  cbn [existsb]. rewrite negb_orb, andb_true_iff. intros [Hc Hp].
  cbn [app split]. rewrite N.eqb_sym in Hc.
  destruct (c =? 0x0A); [discriminate |].
  change (p ++ [0x0A] ++ s) with (p ++ nl ++ s).
  now rewrite (IH Hp).
Qed.

Lemma split_join (l : jsstring) (ls : list jsstring) :
  forallb oneLine (l :: ls) = true -> split 0x0A (join nl (l :: ls)) = l :: ls.
Proof.
  revert l. induction ls as [|l' ls IH]; intros l.
  - cbn [forallb join]. rewrite andb_true_r. apply split_oneLine.
  - intros H. cbn [forallb] in H. apply andb_true_iff in H as [Hl H].
    change (join nl (l :: l' :: ls)) with (l ++ nl ++ join nl (l' :: ls)).
    now rewrite (split_app_nl _ _ Hl), (IH _ H).
Qed.

Lemma parse_join (ls : list jsstring) :
  forallb oneLine ls = true -> parseProofLog (join nl ls) = parseLines ls.
Proof.
  unfold parseProofLog. destruct ls as [|l ls]; intros H.
  - reflexivity.
  - now rewrite (split_join _ _ H).
Qed.





(** ** A parsed project is never the empty string *)

Lemma run_plus (c : cclass) (r : regex) (x : N) (s : jsstring)
      (cur : option jsstring) (caps : list jsstring) :
  run (Plus c :: r) (x :: s) cur caps =
  if accepts c x then
    match run (Plus c :: r) s (push x cur) caps with
    | Some m => Some m
    | None => run r s (push x cur) caps
    end
  else None.
Proof. reflexivity. Qed.

Lemma run_plus_nil (c : cclass) (r : regex) (cur : option jsstring)
      (caps : list jsstring) :
  run (Plus c :: r) [] cur caps = None.
Proof. reflexivity. Qed.

(** [(.+)$]: the group takes the whole rest of the line, which is not
    empty. *)
Lemma run_rest_of_line (s : jsstring) :
  forall acc m,
    run [Plus Dot; GClose; Eos] s (Some acc) [] = Some m ->
    m = [rev acc ++ s] /\ s <> [].
Proof.
  induction s as [|x s IH]; intros acc m H.
  - rewrite run_plus_nil in H. discriminate.
  - rewrite run_plus in H.
    destruct (accepts Dot x); [| discriminate].
    cbn [push] in H.
    destruct (run [Plus Dot; GClose; Eos] s (Some (x :: acc)) []) eqn:E.
    + injection H as <-. destruct (IH _ _ E) as [-> _].
      cbn [rev]. rewrite <- app_assoc. split; [reflexivity | discriminate].
    + destruct s as [|y s]; [| discriminate].
      cbn in H. injection H as <-. split; [reflexivity | discriminate].
Qed.

Lemma exec_where (l : jsstring) (m : list jsstring) :
  exec WHERE_LINE l = Some m ->
  exists cap, m = [cap] /\ cap <> [] /\ l = js "- どこで: " ++ cap.
Proof.
  unfold exec, WHERE_LINE, lit. intros H.
  apply run_lit in H. destruct H as [s [-> H]].
  change (run [Plus Dot; GClose; Eos] s (Some []) [] = Some m) in H.
  apply run_rest_of_line in H. destruct H as [-> Hs].
  exists s. repeat split; assumption.
Qed.

Lemma trimStart_head (s : jsstring) (c : N) (t : jsstring) :
  trimStart s = c :: t -> is_ws c = false.
Proof.
  induction s as [|x s IH]; [discriminate |].
  cbn [trimStart]. destruct (is_ws x) eqn:E; [exact IH |].
  intros H. injection H as <- _. exact E.
Qed.

Lemma trimStart_nil (s : jsstring) :
  trimStart s = [] -> forall c, In c s -> is_ws c = true.
Proof.
  induction s as [|x s IH]; [intros _ c [] |].
  cbn [trimStart]. destruct (is_ws x) eqn:E; [| discriminate].
  intros H c [<- | Hc]; [exact E | now apply IH].
Qed.

Lemma trim_last (s t : jsstring) (c : N) :
  trim s = t ++ [c] -> is_ws c = false.
Proof.
  unfold trim, trimEnd. intros H.
  apply (f_equal (@rev N)) in H.
  rewrite rev_involutive, rev_app_distr in H. cbn in H.
  exact (trimStart_head _ _ _ H).
Qed.

Lemma trim_nil (s : jsstring) :
  trim s = [] -> forall c, In c s -> is_ws c = true.
Proof.
  unfold trim, trimEnd. intros H.
  apply (f_equal (@rev N)) in H. rewrite rev_involutive in H. cbn in H.
  assert (Hs : trimStart s = []).
  { destruct (trimStart s) as [|c t] eqn:E; [reflexivity |].
    pose proof (trimStart_head _ _ _ E) as Hc.
    pose proof (trimStart_nil _ H c) as Hc'.
    rewrite Hc' in Hc; [discriminate |].
    apply in_rev. rewrite rev_involutive. now left. }
  exact (trimStart_nil _ Hs).
Qed.

(** The project a "where" line of a trimmed line gives is not empty. *)
Lemma where_project_nonempty (raw : jsstring) (m : list jsstring) :
  exec WHERE_LINE (trim raw) = Some m -> trim (grp m 1) <> [].
Proof.
  intros H. apply exec_where in H. destruct H as [cap [-> [Hcap Hl]]].
  cbn [grp Nat.sub nth].
  destruct (exists_last Hcap) as [t [c ->]].
  rewrite app_assoc in Hl. apply trim_last in Hl.
  intros Hn. rewrite (trim_nil _ Hn c) in Hl; [discriminate |].
  apply in_or_app. right. now left.
Qed.

Lemma lastMatch_in (r : regex) (b : list jsstring) (m : list jsstring) :
  lastMatch r b = Some m -> exists l, In l b /\ exec r l = Some m.
Proof.
  induction b as [|l b IH]; [discriminate |].
  cbn [lastMatch]. destruct (lastMatch r b) eqn:E.
  - intros H. injection H as <-. destruct (IH eq_refl) as [l' [Hin Hl']].
    exists l'. split; [now right | exact Hl'].
  - intros H. exists l. split; [now left | exact H].
Qed.

Lemma body_in (ls : list jsstring) (l : jsstring) :
  In l (body ls) -> In l ls.
Proof.
  induction ls as [|x ls IH]; [intros [] |].
  cbn [body]. destruct (matches SESSION_HEADER x); [intros [] |].
  intros [<- | H]; [now left | right; now apply IH].
Qed.

Lemma blocks_in (ls : list jsstring) (blk : jsstring * list jsstring)
      (l : jsstring) :
  In blk (blocks ls) -> In l (snd blk) -> In l ls.
Proof.
  induction ls as [|x ls IH]; [intros [] |].
  cbn [blocks]. destruct (matches SESSION_HEADER x).
  - intros [<- | H] Hl.
    + right. now apply body_in.
    + right. now apply IH.
  - intros H Hl. right. now apply IH.
Qed.

Lemma parsed_project_nonempty (content : jsstring) (s : Session) :
  In s (parseProofLog content) -> project s <> Some [].
Proof.
  unfold parseProofLog. rewrite parseLines_blocks.
  intros H. apply in_map_iff in H. destruct H as [blk [<- Hblk]].
  unfold sessionOf.
  rewrite (fields_lastMatch _ _ _ _ field_project).
  destruct (lastMatch WHERE_LINE (snd blk)) as [m|] eqn:E; [| discriminate].
  apply lastMatch_in in E. destruct E as [l [Hl Hm]].
  pose proof (blocks_in _ _ _ Hblk Hl) as Hin.
  apply in_map_iff in Hin. destruct Hin as [raw [<- _]].
  intros Hp. injection Hp as Hp.
  exact (where_project_nonempty _ _ Hm Hp).
Qed.

(** ** The aggregation loop *)

Lemma str_eqb_eq (a b : jsstring) : str_eqb a b = true <-> a = b.
Proof.
  unfold str_eqb. destruct (list_eq_dec N.eq_dec a b); split; congruence.
Qed.

Lemma str_eqb_refl (a : jsstring) : str_eqb a a = true.
Proof. now apply str_eqb_eq. Qed.

Lemma str_eqb_neq (a b : jsstring) : str_eqb a b = false <-> a <> b.
Proof.
  unfold str_eqb. destruct (list_eq_dec N.eq_dec a b); split; congruence.
Qed.

Lemma falsy_retained (s : Session) :
  project s <> Some [] -> falsy (project s) = negb (retained s).
Proof.
  unfold falsy, retained.
  destruct (project s) as [[|c p]|]; intros H; try reflexivity.
  now elim H.
Qed.

Lemma filter_ext_in_bool (A : Type) (f g : A -> bool) (l : list A) :
  (forall x, In x l -> f x = g x) -> filter f l = filter g l.
Proof.
  induction l as [|x l IH]; intros H; [reflexivity |].
  cbn [filter]. rewrite (H x (or_introl eq_refl)), IH; [reflexivity |].
  intros y Hy. apply H. now right.
Qed.


Section Totals.
Variable total : Agg -> N.
Variable amount : Session -> N.
Hypothesis add : forall a s,
  falsy (project s) = false -> total (addSession a s) = total a + amount s.

Lemma total_loop (ss : list Session) :
  forall a,
    total (fold_left addSession ss a) =
    total a
    + sumN (map amount (filter (fun s => negb (falsy (project s))) ss)).
Proof.
  induction ss as [|s ss IH]; intros a.
  - cbn. now rewrite N.add_0_r.
  - cbn [fold_left filter]. rewrite IH.
    destruct (falsy (project s)) eqn:E; cbn [negb].
    + unfold addSession. now rewrite E.
    + cbn [map sumN fold_right]. rewrite (add _ _ E).
      fold (sumN (map amount
                  (filter (fun s => negb (falsy (project s))) ss))).
      lia.
Qed.
End Totals.

Ltac total_step :=
  let E := fresh "E" in
  intros ? ? E; unfold addSession; rewrite E; reflexivity.

Lemma totalMinutes_loop (ss : list Session) (a : Agg) :
  totalMinutes (fold_left addSession ss a) =
  totalMinutes a
  + sumN (map durationMin (filter (fun s => negb (falsy (project s))) ss)).
Proof. apply total_loop. total_step. Qed.

Lemma totalSessions_loop (ss : list Session) (a : Agg) :
  totalSessions (fold_left addSession ss a) =
  totalSessions a
  + sumN (map (fun _ => 1) (filter (fun s => negb (falsy (project s))) ss)).
Proof. apply (total_loop totalSessions (fun _ => 1)). total_step. Qed.

Lemma totalLines_loop (ss : list Session) (a : Agg) :
  totalLines (fold_left addSession ss a) =
  totalLines a
  + sumN (map linesAdded (filter (fun s => negb (falsy (project s))) ss)).
Proof. apply total_loop. total_step. Qed.

Lemma totalFiles_loop (ss : list Session) (a : Agg) :
  totalFiles (fold_left addSession ss a) =
  totalFiles a
  + sumN (map filesChanged (filter (fun s => negb (falsy (project s))) ss)).
Proof. apply total_loop. total_step. Qed.

Lemma totalActions_loop (ss : list Session) (a : Agg) :
  totalActions (fold_left addSession ss a) =
  totalActions a
  + sumN (map ccActions (filter (fun s => negb (falsy (project s))) ss)).
Proof. apply total_loop. total_step. Qed.

Lemma sumN_ones (A : Type) (l : list A) :
  sumN (map (fun _ => 1) l) = N.of_nat (List.length l).
Proof.
  induction l as [|x l IH]; [reflexivity |].
  cbn [map sumN fold_right List.length]. fold (sumN (map (fun _ : A => 1) l)).
  rewrite IH. lia.
Qed.

Lemma truthy_parsed (content : jsstring) :
  filter (fun s => negb (falsy (project s))) (parseProofLog content)
  = filter retained (parseProofLog content).
Proof.
  apply filter_ext_in_bool. intros s Hs.
  rewrite falsy_retained; [apply negb_involutive |].
  exact (parsed_project_nonempty _ _ Hs).
Qed.

(** The grand totals are the sums over the retained sessions of the
    parsed log. *)
Lemma totals_are_sums (content : jsstring) :
  let ss := filter retained (parseProofLog content) in
  let a := aggregate (parseProofLog content) in
  totalMinutes a = sumN (map durationMin ss)
  /\ totalSessions a = N.of_nat (List.length ss)
  /\ totalLines a = sumN (map linesAdded ss)
  /\ totalFiles a = sumN (map filesChanged ss)
  /\ totalActions a = sumN (map ccActions ss).
Proof.
  cbv zeta. unfold aggregate.
  rewrite totalMinutes_loop, totalSessions_loop, totalLines_loop,
          totalFiles_loop, totalActions_loop.
  rewrite truthy_parsed, sumN_ones. cbn [start totalMinutes totalSessions
    totalLines totalFiles totalActions].
  repeat split; lia.
Qed.

(** ** The buckets *)

Lemma update_not_own (o : obj) (p : jsstring) (f : Stats.t -> Stats.t) :
  own o p = None -> update o p f = o.
Proof.
  induction o as [|[k v] o IH]; [reflexivity |].
  cbn [own update]. destruct (str_eqb p k); [discriminate |].
  intros H. now rewrite (IH H).
Qed.

Lemma own_app_new (o : obj) (p : jsstring) (v : Stats.t) :
  own o p = None -> own (o ++ [(p, v)]) p = Some v.
Proof.
  induction o as [|[k w] o IH]; cbn [app own].
  - now rewrite str_eqb_refl.
  - destruct (str_eqb p k); [discriminate | exact IH].
Qed.

Lemma update_keys (o : obj) (p : jsstring) (f : Stats.t -> Stats.t) :
  map fst (update o p f) = map fst o.
Proof.
  induction o as [|[k v] o IH]; [reflexivity |].
  cbn [update]. destruct (str_eqb p k); cbn [map fst]; [reflexivity |].
  now rewrite IH.
Qed.

Lemma own_none_keys (o : obj) (p : jsstring) :
  own o p = None <-> ~ In p (map fst o).
Proof.
  induction o as [|[k v] o IH]; cbn [own map fst In]; [tauto |].
  destruct (str_eqb p k) eqn:E.
  - apply str_eqb_eq in E. subst k. split; [discriminate | tauto].
  - apply str_eqb_neq in E. rewrite IH. split.
    + intros H [Hk | Hin]; [now apply E | now apply H].
    + intros H Hin. apply H. now right.
Qed.

Lemma sumN_app (l1 l2 : list N) : sumN (l1 ++ l2) = sumN l1 + sumN l2.
Proof.
  induction l1 as [|x l1 IH]; [reflexivity |].
  cbn [app sumN fold_right]. fold (sumN (l1 ++ l2)). fold (sumN l1).
  rewrite IH. lia.
Qed.

Lemma sumN_perm (l1 l2 : list N) : Permutation l1 l2 -> sumN l1 = sumN l2.
Proof.
  induction 1; cbn [sumN fold_right]; fold sumN in *;
    repeat match goal with
           | |- context [fold_right N.add 0 ?l] =>
             change (fold_right N.add 0 l) with (sumN l)
           end; lia.
Qed.

Section Buckets.
Variable g : Stats.t -> N.
Variable amount : Session -> N.
Hypothesis g_bump : forall s b, g (bump s b) = g b + amount s.
Hypothesis g_zero : g (Stats.mk 0 0 0 0) = 0.

Lemma sumBy_update_own (s : Session) (p : jsstring) (o : obj) :
  own o p <> None ->
  sumBy g (update o p (bump s)) = sumBy g o + amount s.
Proof.
  unfold sumBy. induction o as [|[k v] o IH]; [now intros [] |].
  cbn [own update]. destruct (str_eqb p k); intros H.
  - cbn [map snd sumN fold_right]. rewrite g_bump. lia.
  - cbn [map snd sumN fold_right].
    change (fold_right N.add 0 ?l) with (sumN l).
    fold (sumN (map (fun e => g (snd e)) (update o p (bump s)))).
    fold (sumN (map (fun e => g (snd e)) o)).
    rewrite (IH H). lia.
Qed.

(** A retained session whose project is not an inherited name adds its
    amount to the buckets. *)
Lemma bucket_step (a : Agg) (s : Session) :
  falsy (project s) = false -> inherited (projectOf s) = false ->
  sumBy g (byProject (addSession a s)) = sumBy g (byProject a) + amount s.
Proof.
  intros E Hi. unfold addSession. rewrite E. cbn [byProject].
  fold (projectOf s). unfold absent. rewrite Hi. cbn [negb].
  destruct (own (byProject a) (projectOf s)) eqn:Eo.
  - apply sumBy_update_own. congruence.
  - unfold create. rewrite sumBy_update_own.
    + unfold sumBy. rewrite map_app, sumN_app. cbn. rewrite g_zero. lia.
    + rewrite (own_app_new _ _ _ Eo). discriminate.
Qed.

Lemma bucket_loop (ss : list Session) :
  (forall s, In s ss -> falsy (project s) = false ->
             inherited (projectOf s) = false) ->
  forall a,
    sumBy g (byProject (fold_left addSession ss a)) =
    sumBy g (byProject a)
    + sumN (map amount (filter (fun s => negb (falsy (project s))) ss)).
Proof.
  induction ss as [|s ss IH]; intros H a.
  - cbn. now rewrite N.add_0_r.
  - cbn [fold_left filter].
    rewrite IH by (intros s' Hs'; apply H; now right).
    destruct (falsy (project s)) eqn:E; cbn [negb].
    + unfold addSession. now rewrite E.
    + rewrite (bucket_step _ _ E (H s (or_introl eq_refl) E)).
      cbn [map sumN fold_right].
      fold (sumN (map amount
                  (filter (fun s => negb (falsy (project s))) ss))).
      lia.
Qed.
End Buckets.

(** *** The sort *)

Lemma insert_perm (A : Type) (cmp : A -> A -> Z) (x : A) (l : list A) :
  Permutation (insert cmp x l) (x :: l).
Proof.
  induction l as [|y l IH]; [apply Permutation_refl |].
  cbn [insert]. destruct (cmp x y <=? 0)%Z; [apply Permutation_refl |].
  rewrite IH. apply perm_swap.
Qed.

Lemma sort_perm (A : Type) (cmp : A -> A -> Z) (l : list A) :
  Permutation (sort cmp l) l.
Proof.
  induction l as [|x l IH]; [constructor |].
  cbn [sort fold_right]. fold (sort cmp l).
  rewrite insert_perm. now constructor.
Qed.

Lemma filter_split_perm (A : Type) (f : A -> bool) (l : list A) :
  Permutation (filter f l ++ filter (fun x => negb (f x)) l) l.
Proof.
  induction l as [|x l IH]; [constructor |].
  cbn [filter]. destruct (f x); cbn [negb app].
  - now constructor.
  - rewrite <- Permutation_middle. now constructor.
Qed.

Lemma Object_entries_perm (o : obj) : Permutation (Object_entries o) o.
Proof.
  unfold Object_entries. rewrite sort_perm. apply filter_split_perm.
Qed.

Lemma sumBy_perm (g : Stats.t -> N) (l1 l2 : list entry) :
  Permutation l1 l2 -> sumBy g l1 = sumBy g l2.
Proof. intros H. unfold sumBy. apply sumN_perm. now apply Permutation_map. Qed.

(** The buckets add up to the grand totals when no retained project
    bears a name that [byProject] inherits. *)
Lemma buckets_add_up (content : jsstring) :
  let ss := parseProofLog content in
  let a := aggregate ss in
  let sp := sort by_minutes (Object_entries (byProject a)) in
  (forall s, In s ss -> retained s = true -> inherited (projectOf s) = false) ->
  sumBy Stats.minutes sp = totalMinutes a
  /\ sumBy Stats.sessions sp = totalSessions a
  /\ sumBy Stats.linesAdded sp = totalLines a
  /\ sumBy Stats.files sp = totalFiles a.
Proof.
  cbv zeta. intros H.
  assert (H' : forall s, In s (parseProofLog content) ->
                 falsy (project s) = false ->
                 inherited (projectOf s) = false).
  { intros s Hs E. apply (H s Hs).
    rewrite (falsy_retained s (parsed_project_nonempty _ _ Hs)) in E.
    now apply negb_false_iff. }
  rewrite !(sumBy_perm _ _ _ (sort_perm _ _ _)).
  rewrite !(sumBy_perm _ _ _ (Object_entries_perm _)).
  unfold aggregate.
  rewrite (bucket_loop Stats.minutes durationMin), totalMinutes_loop;
    [| easy | easy | exact H'].
  rewrite (bucket_loop Stats.sessions (fun _ => 1)), totalSessions_loop;
    [| easy | easy | exact H'].
  rewrite (bucket_loop Stats.linesAdded linesAdded), totalLines_loop;
    [| easy | easy | exact H'].
  rewrite (bucket_loop Stats.files filesChanged), totalFiles_loop;
    [| easy | easy | exact H'].
  repeat split.
Qed.

Section SortSorted.
Variable A : Type.
Variable cmp : A -> A -> Z.
Hypothesis total : forall x y, (0 < cmp x y -> cmp y x <= 0)%Z.
Hypothesis trans :
  forall x y z, (cmp x y <= 0 -> cmp y z <= 0 -> cmp x z <= 0)%Z.

Lemma insert_sorted (x : A) (l : list A) :
  StronglySorted (fun a b => (cmp a b <= 0)%Z) l ->
  StronglySorted (fun a b => (cmp a b <= 0)%Z) (insert cmp x l).
Proof.
  induction l as [|y l IH]; intros H.
  - repeat constructor.
  - cbn [insert]. destruct (cmp x y <=? 0)%Z eqn:E.
    + apply Z.leb_le in E. constructor; [exact H |].
      constructor; [exact E |].
      apply StronglySorted_inv in H. destruct H as [_ H].
      eapply Forall_impl; [| exact H]. intros z Hz. now apply (trans x y z).
    + apply Z.leb_gt in E. apply StronglySorted_inv in H.
      destruct H as [Hl Hy]. constructor; [now apply IH |].
      apply (Permutation_Forall (Permutation_sym (insert_perm A cmp x l))).
      constructor; [now apply total | exact Hy].
Qed.

Lemma sort_sorted (l : list A) :
  StronglySorted (fun a b => (cmp a b <= 0)%Z) (sort cmp l).
Proof.
  induction l as [|x l IH]; [constructor |].
  cbn [sort fold_right]. fold (sort cmp l). now apply insert_sorted.
Qed.
End SortSorted.

Lemma StronglySorted_weaken (A : Type) (R S : A -> A -> Prop) (l : list A) :
  (forall x y, R x y -> S x y) -> StronglySorted R l -> StronglySorted S l.
Proof.
  intros HRS. induction 1 as [|a l _ IH Ha]; constructor; [exact IH |].
  eapply Forall_impl; [| exact Ha]. intros b. apply HRS.
Qed.

Lemma sort_descending (l : list entry) :
  StronglySorted descending (sort by_minutes l).
Proof.
  apply StronglySorted_weaken with
    (R := fun x y => (by_minutes x y <= 0)%Z).
  - unfold descending, by_minutes. intros; lia.
  - apply sort_sorted; unfold by_minutes; intros; lia.
Qed.

Lemma sort_ascending (l : list entry) :
  StronglySorted ascending (sort by_index l).
Proof.
  apply StronglySorted_weaken with
    (R := fun x y => (by_index x y <= 0)%Z).
  - unfold ascending, by_index. intros; lia.
  - apply sort_sorted; unfold by_index; intros; lia.
Qed.

(** The sort is stable: it never moves an entry past another one with
    the same minutes. *)
Lemma insert_stable (m : N) (x : entry) (l : list entry) :
  filter (tied m) (insert by_minutes x l) = filter (tied m) (x :: l).
Proof.
  induction l as [|y l IH]; [reflexivity |].
  cbn [insert]. destruct (by_minutes x y <=? 0)%Z eqn:E; [reflexivity |].
  apply Z.leb_gt in E. unfold by_minutes in E.
  cbn [filter] in *. rewrite IH. unfold tied.
  destruct (Stats.minutes (snd x) =? m) eqn:Ex; [| reflexivity].
  apply N.eqb_eq in Ex.
  destruct (Stats.minutes (snd y) =? m) eqn:Ey; [| reflexivity].
  apply N.eqb_eq in Ey. lia.
Qed.

Lemma sort_stable (l : list entry) : tiesKeep l (sort by_minutes l).
Proof.
  intros m. induction l as [|x l IH]; [reflexivity |].
  cbn [sort fold_right]. fold (sort by_minutes l).
  rewrite insert_stable. cbn [filter]. now rewrite IH.
Qed.

(** *** The order in which the buckets are created *)

Lemma own_none_existsb (o : obj) (p : jsstring) :
  own o p = None <-> existsb (str_eqb p) (map fst o) = false.
Proof.
  induction o as [|[k v] o IH]; cbn [own map fst existsb]; [tauto |].
  destruct (str_eqb p k); cbn [orb]; [split; discriminate | exact IH].
Qed.

Lemma keys_step (a : Agg) (s : Session) :
  falsy (project s) = false ->
  map fst (byProject (addSession a s))
  = addKey (map fst (byProject a)) (projectOf s).
Proof.
  intros E. unfold addSession. rewrite E. cbn [byProject].
  fold (projectOf s). rewrite update_keys. unfold absent, addKey.
  destruct (own (byProject a) (projectOf s)) eqn:Eo.
  - destruct (existsb (str_eqb (projectOf s)) (map fst (byProject a))) eqn:Ek;
      [reflexivity |].
    apply own_none_existsb in Ek. congruence.
  - apply own_none_existsb in Eo. rewrite Eo. cbn [orb].
    destruct (inherited (projectOf s)); cbn [negb]; [reflexivity |].
    unfold create. now rewrite map_app.
Qed.

Lemma keys_loop (ss : list Session) :
  forall a,
    map fst (byProject (fold_left addSession ss a))
    = fold_left addKey
        (map projectOf (filter (fun s => negb (falsy (project s))) ss))
        (map fst (byProject a)).
Proof.
  induction ss as [|s ss IH]; intros a; [reflexivity |].
  cbn [fold_left filter]. rewrite IH.
  destruct (falsy (project s)) eqn:E; cbn [negb map fold_left].
  - unfold addSession. now rewrite E.
  - now rewrite (keys_step _ _ E).
Qed.

Lemma filter_filter_and (A : Type) (f g : A -> bool) (l : list A) :
  filter f (filter g l) = filter (fun y => g y && f y) l.
Proof.
  induction l as [|x l IH]; [reflexivity |].
  cbn [filter]. destruct (g x); cbn [andb filter]; now rewrite IH.
Qed.

Lemma filter_true (A : Type) (l : list A) : filter (fun _ => true) l = l.
Proof. induction l as [|x l IH]; [reflexivity |]. cbn. now rewrite IH. Qed.

Lemma addKey_loop (ps : list jsstring) :
  forall ks,
    fold_left addKey ps ks =
    ks ++ filter (fun p => negb (existsb (str_eqb p) ks))
                 (dedup (filter (fun p => negb (inherited p)) ps)).
Proof.
  induction ps as [|x ps IH]; intros ks.
  - cbn. now rewrite app_nil_r.
  - cbn [fold_left filter]. rewrite IH. unfold addKey.
    destruct (inherited x) eqn:Ei; cbn [negb].
    + now rewrite orb_true_r.
    + rewrite orb_false_r. cbn [dedup filter].
      destruct (existsb (str_eqb x) ks) eqn:Ek; cbn [negb].
      * f_equal. rewrite filter_filter_and. apply filter_ext_in_bool.
        intros y _.
        destruct (str_eqb y x) eqn:Eyx; cbn [negb andb]; [| reflexivity].
        apply str_eqb_eq in Eyx. subst y. now rewrite Ek.
      * rewrite <- app_assoc. cbn [app]. do 2 f_equal.
        rewrite filter_filter_and. apply filter_ext_in_bool.
        intros y _. rewrite existsb_app. cbn [existsb].
        rewrite orb_false_r, negb_orb. apply andb_comm.
Qed.

Lemma keys_first_seen (content : jsstring) :
  map fst (byProject (aggregate (parseProofLog content)))
  = firstSeen (parseProofLog content).
Proof.
  unfold aggregate, firstSeen.
  rewrite keys_loop, addKey_loop, truthy_parsed.
  cbn [start byProject map app existsb negb]. apply filter_true.
Qed.

Lemma Object_entries_plain (o : obj) :
  forallb (fun k => negb (array_index k)) (map fst o) = true ->
  Object_entries o = o.
Proof.
  intros H. unfold Object_entries.
  assert (Hf : filter (fun e => array_index (fst e)) o = []).
  { induction o as [|e o IH]; [reflexivity |].
    cbn [map forallb] in H. apply andb_true_iff in H as [He Ho].
    cbn [filter]. apply negb_true_iff in He. rewrite He. now apply IH. }
  rewrite Hf. cbn [sort fold_right app].
  induction o as [|e o IH]; [reflexivity |].
  cbn [map forallb] in H. apply andb_true_iff in H as [He Ho].
  cbn [filter] in *. rewrite He.
  apply negb_true_iff in He. rewrite He in Hf. now rewrite (IH Ho Hf).
Qed.

Lemma firstn_sorted (A : Type) (R : A -> A -> Prop) (n : nat) (l : list A) :
  StronglySorted R l -> StronglySorted R (firstn n l).
Proof.
  revert l. induction n as [|n IH]; intros l H; [constructor |].
  destruct l as [|x l]; [constructor |].
  apply StronglySorted_inv in H. destruct H as [Hl Hx].
  cbn [firstn]. constructor; [now apply IH |].
  rewrite <- (firstn_skipn n l) in Hx. now apply Forall_app in Hx.
Qed.

Lemma load_sessionsOf (f : File) : load f = aggregate (sessionsOf f).
Proof. destruct f; reflexivity. Qed.

Lemma sessionsOf_nonempty (f : File) (s : Session) :
  In s (sessionsOf f) -> project s <> Some [].
Proof.
  destruct f; cbn [sessionsOf]; try now intros [].
  apply parsed_project_nonempty.
Qed.

Lemma keys_first_seen_file (f : File) :
  map fst (byProject (load f)) = firstSeen (sessionsOf f).
Proof. destruct f; try reflexivity. apply keys_first_seen. Qed.

(** C3, amended.  The list the formatters present (all of it in the
    plain and chat formats, its first three entries in the micro-post) is
    sorted by minutes, largest first, and entries of equal minutes keep
    the order of [Object.entries]: the buckets whose name is an array index
    first, by ascending index, then the other buckets in the order in
    which their projects were first encountered.  When no project name is
    an array index, ties are in first-encounter order. *)
Theorem projects_sorted_ties_in_entries_order
        (dayOfWeek : jsstring -> jsstring) (date : jsstring) (file : File) :
  let d := day dayOfWeek date file in
  let o := byProject (totals d) in
  let indexed := sort by_index (filter (fun e => array_index (fst e)) o) in
  let named := filter (fun e => negb (array_index (fst e))) o in
  StronglySorted descending (sortedProjects d)
  /\ StronglySorted descending (firstn 3 (sortedProjects d))
  /\ tiesKeep (indexed ++ named) (sortedProjects d)
  /\ StronglySorted ascending indexed
  /\ map fst o = firstSeen (sessionsOf file)
  /\ (forallb (fun k => negb (array_index k)) (firstSeen (sessionsOf file))
      = true -> tiesKeep o (sortedProjects d)).
Proof.
  cbv zeta. cbn [day totals sortedProjects].
  split; [apply sort_descending |].
  split; [apply firstn_sorted, sort_descending |].
  split; [apply sort_stable |].
  split; [apply sort_ascending |].
  split; [apply keys_first_seen_file |].
  intros H. rewrite <- keys_first_seen_file in H.
  rewrite (Object_entries_plain _ H). apply sort_stable.
Qed.

(** C3 as stated fails on [log_index]: [alpha] is encountered before
    [2024] and both have ten minutes, yet [2024] is presented first. *)
Lemma index_name_overtakes_tie :
  let d := day (fun _ => js "Fri") (js "2026-02-27") (Text log_index) in
  firstSeen (parseProofLog log_index) = [js "alpha"; js "2024"]
  /\ map fst (byProject (totals d)) = [js "alpha"; js "2024"]
  /\ map (fun e => (fst e, Stats.minutes (snd e))) (sortedProjects d)
     = [(js "2024", 10); (js "alpha", 10)]
  /\ ~ tiesKeep (byProject (totals d)) (sortedProjects d).
Proof.
  cbv zeta. repeat split; try (vm_compute; reflexivity).
  intros H. specialize (H 10). vm_compute in H. discriminate.
Qed.

(** C2 at [log_constructor]: the session is retained and counted in the
    grand totals, but [byProject.constructor] is the inherited function,
    so no bucket is created and the buckets add up to nothing. *)
Theorem inherited_name_gets_no_bucket :
  let ss := parseProofLog log_constructor in
  let d := day (fun _ => js "Fri") (js "2026-02-27") (Text log_constructor) in
  map project ss = [Some (js "constructor")]
  /\ map durationMin (filter retained ss) = [90]
  /\ totalMinutes (totals d) = 90
  /\ totalSessions (totals d) = 1
  /\ totalLines (totals d) = 120
  /\ totalFiles (totals d) = 3
  /\ sortedProjects d = []
  /\ sumBy Stats.minutes (sortedProjects d) = 0.
Proof. cbv zeta. repeat split; vm_compute; reflexivity. Qed.

(** ** Durations *)

Lemma parseInt_acc (d : Decimal.uint) (acc : positive) :
  fold_left (fun a c => 10 * a + (c - 48)) (uint_units d) (Npos acc)
  = Npos (Pos.of_uint_acc d acc).
Proof.
  revert acc. induction d; intros acc; cbn [uint_units fold_left Pos.of_uint_acc];
    try reflexivity;
    match goal with
    | |- fold_left _ _ ?x = _ =>
      match goal with
      | |- _ = N.pos (Pos.of_uint_acc _ ?y) =>
        replace x with (N.pos y) by lia
      end
    end; apply IHd.
Qed.

Lemma parseInt_uint (d : Decimal.uint) :
  parseInt (uint_units d) = Pos.of_uint d.
Proof.
  unfold parseInt. induction d; cbn [uint_units fold_left Pos.of_uint];
    try reflexivity; try exact IHd;
    match goal with
    | |- fold_left _ _ ?x = _ => change x with (N.pos 1%positive) ||
                                  change x with (N.pos 2%positive) ||
                                  change x with (N.pos 3%positive) ||
                                  change x with (N.pos 4%positive) ||
                                  change x with (N.pos 5%positive) ||
                                  change x with (N.pos 6%positive) ||
                                  change x with (N.pos 7%positive) ||
                                  change x with (N.pos 8%positive) ||
                                  change x with (N.pos 9%positive)
    end; apply parseInt_acc.
Qed.

(** [num] writes the decimal numeral of a number: [parseInt] reads it
    back. *)
Lemma parseInt_num (n : N) : parseInt (num n) = n.
Proof.
  unfold num. rewrite parseInt_uint. apply DecimalN.Unsigned.of_to.
Qed.

(** ** The arithmetic of [fmtHours] on doubles *)

Lemma log2_bounds (a : N) : 0 < a -> 2 ^ N.log2 a <= a < 2 ^ N.succ (N.log2 a).
Proof. apply N.log2_spec. Qed.


(** Rounding a quotient by 60 that keeps at least five binary places
    does not reach the next integer. *)
Lemma round_keeps_floor (M P m : N) :
  32 <= P ->
  m = M * P / 60 \/ (m = M * P / 60 + 1 /\ 30 <= (M * P) mod 60) ->
  m / P = M / 60.
Proof.
  intros HP Hm.
  pose proof (N.div_mod M 60 ltac:(discriminate)) as HM.
  pose proof (N.mod_lt M 60 ltac:(discriminate)) as Ht.
  pose proof (N.div_mod (M * P) 60 ltac:(discriminate)) as HMP.
  pose proof (N.mod_lt (M * P) 60 ltac:(discriminate)) as Hr.
  assert (HT : M mod 60 * P <= 59 * P) by (apply N.mul_le_mono_r; lia).
  assert (E : M * P = 60 * (M / 60 * P) + M mod 60 * P).
  { rewrite HM at 1. rewrite N.mul_add_distr_r. now rewrite N.mul_assoc. }
  assert (B : M / 60 * P <= m < M / 60 * P + P).
  { clear HM Ht.
    set (Y := M * P) in *. set (m0 := Y / 60) in *. set (r := Y mod 60) in *.
    set (X := M / 60 * P) in *. set (T := M mod 60 * P) in *.
    clearbody m0 r X T. clearbody Y. lia. }
  symmetry. apply (N.div_unique m P (M / 60) (m - M / 60 * P)); lia.
Qed.

Lemma scaled_down (a b k : N) :
  Double.scaled a b (- Z.of_N k) = (a * 2 ^ k, b).
Proof.
  unfold Double.scaled.
  replace (Z.to_N (- - Z.of_N k)) with k by lia.
  replace (Z.to_N (- Z.of_N k)) with 0 by lia.
  now rewrite N.pow_0_r, N.mul_1_r.
Qed.

Lemma scaled_up (a b k : N) :
  Double.scaled a b (Z.of_N k) = (a, b * 2 ^ k).
Proof.
  unfold Double.scaled.
  replace (Z.to_N (- Z.of_N k)) with 0 by lia.
  replace (Z.to_N (Z.of_N k)) with k by lia.
  now rewrite N.pow_0_r, N.mul_1_r.
Qed.

Lemma floor_down (m k : N) : Double.floor (m, (- Z.of_N k)%Z) = m / 2 ^ k.
Proof.
  unfold Double.floor. cbn [fst snd].
  replace (Z.to_N (- - Z.of_N k)) with k by lia.
  replace (Z.to_N (- Z.of_N k)) with 0 by lia.
  now rewrite N.pow_0_r, N.mul_1_r.
Qed.

Lemma floor_up (m k : N) : Double.floor (m, Z.of_N k) = m * 2 ^ k.
Proof.
  unfold Double.floor. cbn [fst snd].
  replace (Z.to_N (- Z.of_N k)) with 0 by lia.
  replace (Z.to_N (Z.of_N k)) with k by lia.
  now rewrite N.pow_0_r, N.div_1_r.
Qed.

(** The quotient by 60 of a number below 2^53 keeps five binary places
    or more. *)
Lemma exponent_60 (M : N) :
  0 < M -> M <= MAX_SAFE_INTEGER ->
  exists k, 5 <= k /\ Double.exponent M 60 = (- Z.of_N k)%Z.
Proof.
  intros H0 H. unfold Double.exponent.
  assert (L : N.log2 M < 53).
  { apply N.log2_lt_pow2; [exact H0 |]. unfold MAX_SAFE_INTEGER in H.
    change (2 ^ 53) with 9007199254740992. lia. }
  change (N.log2 60) with 5.
  destruct (Double.scaled M 60 _) as [n d].
  destruct (n / d <? 2 ^ 52).
  - exists (58 - N.log2 M). split; lia.
  - exists (57 - N.log2 M). split; lia.
Qed.

(** Below 2^53 the quotient by 60 on doubles has the integer part of the
    exact quotient. *)
Lemma floor_quotient_60 (M : N) :
  M <= MAX_SAFE_INTEGER -> Double.floor (Double.quotient M 60) = M / 60.
Proof.
  intros H. unfold Double.quotient.
  destruct (M =? 0) eqn:E0.
  - apply N.eqb_eq in E0. now subst M.
  - apply N.eqb_neq in E0.
    destruct (exponent_60 M ltac:(lia) H) as [k [Hk ->]].
    rewrite scaled_down.
    assert (HP : 32 <= 2 ^ k).
    { change 32 with (2 ^ 5). apply N.pow_le_mono_r; [discriminate | exact Hk]. }
    destruct ((60 <? 2 * ((M * 2 ^ k) mod 60))
              || ((2 * ((M * 2 ^ k) mod 60) =? 60)
                  && N.odd (M * 2 ^ k / 60))) eqn:R;
      rewrite floor_down; apply round_keeps_floor; try exact HP.
    + right. split; [reflexivity |].
      apply orb_true_iff in R. destruct R as [R | R].
      * apply N.ltb_lt in R. lia.
      * apply andb_true_iff in R. destruct R as [R _].
        apply N.eqb_eq in R. lia.
    + now left.
Qed.

(** An integer that reads as a double below 2^53 is that double. *)
Lemma nearest_safe (v x : N) :
  x <= MAX_SAFE_INTEGER -> Double.nearest v = Double.Finite x -> v = x.
Proof.
  intros Hx. unfold Double.nearest.
  destruct (_ <? 2 ^ 1024); [| discriminate].
  intros E. injection E as E. revert E.
  unfold Double.quotient. destruct (v =? 0) eqn:E0.
  - apply N.eqb_eq in E0. subst v. intros <-. reflexivity.
  - apply N.eqb_neq in E0.
    destruct (log2_bounds v ltac:(lia)) as [Hlo _].
    unfold Double.exponent. change (N.log2 1) with 0.
    destruct (N.le_gt_cases (N.log2 v) 52) as [Hl | Hl].
    + (* the integer fits in the significand *)
      replace (Z.of_N (N.log2 v) - Z.of_N 0 - 52)%Z
        with (- Z.of_N (52 - N.log2 v))%Z by lia.
      rewrite scaled_down, N.div_1_r.
      assert (Hn : 2 ^ 52 <= v * 2 ^ (52 - N.log2 v)).
      { replace 52 with (N.log2 v + (52 - N.log2 v)) at 1 by lia.
        rewrite N.pow_add_r. now apply N.mul_le_mono_r. }
      destruct (v * 2 ^ (52 - N.log2 v) <? 2 ^ 52) eqn:T;
        [apply N.ltb_lt in T; lia |].
      rewrite scaled_down, N.div_1_r, N.mod_1_r.
      change (2 * 0) with 0. change (1 <? 0) with false.
      change (0 =? 1) with false. cbn [orb andb].
      rewrite floor_down, N.div_mul; [easy |].
      apply N.pow_nonzero. discriminate.
    + (* the integer is 2^53 or more, and so is its double *)
      intros E. exfalso. revert E.
      replace (Z.of_N (N.log2 v) - Z.of_N 0 - 52)%Z
        with (Z.of_N (N.log2 v - 52))%Z by lia.
      rewrite scaled_up, N.mul_1_l.
      assert (Hq : 2 ^ 52 <= v / 2 ^ (N.log2 v - 52)).
      { apply N.div_le_lower_bound; [apply N.pow_nonzero; discriminate |].
        rewrite <- N.pow_add_r.
        now replace (N.log2 v - 52 + 52) with (N.log2 v) by lia. }
      destruct (v / 2 ^ (N.log2 v - 52) <? 2 ^ 52) eqn:T;
        [apply N.ltb_lt in T; lia |].
      rewrite scaled_up, N.mul_1_l.
      assert (Hp : 2 <= 2 ^ (N.log2 v - 52)).
      { change 2 with (2 ^ 1) at 1. apply N.pow_le_mono_r; lia. }
      assert (Hm : forall m, 2 ^ 52 <= m ->
                Double.floor (m, Z.of_N (N.log2 v - 52)) <> x).
      { intros m Hm. rewrite floor_up. intros <-.
        assert (2 ^ 52 * 2 <= m * 2 ^ (N.log2 v - 52))
          by now apply N.mul_le_mono.
        unfold MAX_SAFE_INTEGER in Hx.
        change (2 ^ 52) with 4503599627370496 in *. lia. }
      destruct (_ || _); apply Hm; lia.
Qed.

Lemma candidate_safe (x : N) (n k : nat) (v : N) :
  x <= MAX_SAFE_INTEGER -> Double.candidate x n k = Some v -> v = x.
Proof.
  intros Hx. unfold Double.candidate.
  set (lo := x / 10 ^ N.of_nat (n - k) * 10 ^ N.of_nat (n - k)).
  set (hi := (x / 10 ^ N.of_nat (n - k) + 1) * 10 ^ N.of_nat (n - k)).
  assert (R : forall w, Double.reads_as w x = true -> w = x).
  { intros w. unfold Double.reads_as.
    destruct (Double.nearest w) as [y| |] eqn:E; try discriminate.
    intros Hy. apply N.eqb_eq in Hy. subst y.
    now apply (nearest_safe w x). }
  destruct (Double.reads_as lo x) eqn:Elo, (Double.reads_as hi x) eqn:Ehi;
    try discriminate;
    repeat match goal with
           | |- (if ?c then _ else _) = _ -> _ => destruct c
           end;
    intros E; injection E as <-; now apply R.
Qed.

Lemma shortest_safe (x : N) (n : nat) (ks : list nat) :
  x <= MAX_SAFE_INTEGER -> Double.shortest x n ks = x.
Proof.
  intros Hx. induction ks as [|k ks IH]; [reflexivity |].
  cbn [Double.shortest].
  destruct (Double.candidate x n k) as [v|] eqn:E; [| exact IH].
  now apply (candidate_safe x n k).
Qed.

(** Below 2^53 a number is printed as its decimal numeral. *)
Lemma toString_safe (x : N) :
  x <= MAX_SAFE_INTEGER -> Double.toString (Double.Finite x) = num x.
Proof.
  intros Hx. unfold Double.toString, Double.shortestDecimal.
  rewrite (shortest_safe x _ _ Hx).
  assert (H : (x <? 10 ^ 21) = true).
  { apply N.ltb_lt. unfold MAX_SAFE_INTEGER in Hx.
    change (10 ^ 21) with 1000000000000000000000. lia. }
  now rewrite H.
Qed.

(** C8, for the minute counts up to [MAX_SAFE_INTEGER]: [fmtHours M] is
    [{M div 60}h {M mod 60}m] when [M div 60] is positive and [{M}m]
    otherwise, which is when [M] is under one hour; on these counts the
    function on doubles and the function on integers are the same. *)
Theorem fmtHours_hours_and_minutes (M : N) :
  M <= MAX_SAFE_INTEGER ->
  Double.fmtHours (Double.Finite M) =
  (if 0 <? M / 60
   then num (M / 60) ++ js "h " ++ num (M mod 60) ++ js "m"
   else num M ++ js "m")
  /\ ((0 <? M / 60) = false <-> M < 60)
  /\ fmtHours M = Double.fmtHours (Double.Finite M).
Proof.
  intros HM.
  assert (H : (0 <? M / 60) = false <-> M < 60).
  { rewrite N.ltb_ge, N.le_0_r. split.
    - intros H. pose proof (N.div_mod M 60). pose proof (N.mod_lt M 60). lia.
    - apply N.div_small. }
  assert (Hh : M / 60 <= MAX_SAFE_INTEGER).
  { apply N.le_trans with M; [| exact HM].
    apply N.Div0.div_le_upper_bound. lia. }
  assert (Hm : M mod 60 <= MAX_SAFE_INTEGER).
  { pose proof (N.mod_lt M 60 ltac:(discriminate)).
    unfold MAX_SAFE_INTEGER. lia. }
  assert (E : Double.fmtHours (Double.Finite M) = fmtHours M).
  { unfold Double.fmtHours, Double.floorDiv, Double.remainder,
      Double.positive, fmtHours. cbv zeta.
    now rewrite (floor_quotient_60 M HM), (toString_safe _ Hh),
      (toString_safe _ Hm). }
  split; [| split; [exact H | now symmetry]].
  rewrite E. unfold fmtHours. cbv zeta.
  destruct (0 <? M / 60) eqn:E1; [reflexivity |].
  now rewrite (N.mod_small M 60) by (apply H; reflexivity).
Qed.

Lemma fmtHours_hours_and_minutes_witness :
  Double.fmtHours (Double.Finite 135) = js "2h 15m"
  /\ Double.fmtHours (Double.Finite 59) = js "59m".
Proof.
  split.
  - apply (proj1 (fmtHours_hours_and_minutes 135 ltac:(vm_compute; discriminate))).
  - apply (proj1 (fmtHours_hours_and_minutes 59 ltac:(vm_compute; discriminate))).
Defined.

(** C8 as stated, for every minute count, fails: 67553994410557496 is a
    double, its quotient by 60 is 1125899906842624.93..., and the nearest
    double is 1125899906842625, which is what [Math.floor] gets and what
    is printed as the hours. *)
Lemma fmtHours_quotient_rounds_up :
  let M := 67553994410557496 in
  Double.representable M = true
  /\ (0 <? M / 60) = true
  /\ Double.fmtHours (Double.Finite M) = js "1125899906842625h 56m"
  /\ Double.fmtHours (Double.Finite M)
     <> num (M / 60) ++ js "h " ++ num (M mod 60) ++ js "m".
Proof.
  cbv zeta. repeat split; try (vm_compute; reflexivity).
  vm_compute. discriminate.
Qed.

(** ** The micro-post *)

(** C5.  The micro-post has at most 280 code units; when the joined
    lines are longer it is their first 277 units followed by three dots,
    280 units in all. *)
Theorem tweet_at_most_280 (toFixed1K : N -> jsstring) (d : Day) :
  (List.length (formatTweet toFixed1K d) <= 280)%nat
  /\ ((280 < List.length (join nl (tweetParts toFixed1K d)))%nat ->
      formatTweet toFixed1K d
      = firstn 277 (join nl (tweetParts toFixed1K d)) ++ js "..."
      /\ List.length (formatTweet toFixed1K d) = 280%nat).
Proof.
  unfold formatTweet. cbv zeta.
  destruct (280 <? List.length (join nl (tweetParts toFixed1K d)))%nat eqn:E.
  - apply Nat.ltb_lt in E.
    assert (L : List.length (firstn 277 (join nl (tweetParts toFixed1K d))
                             ++ js "...") = 280%nat).
    { rewrite length_app, length_firstn.
      change (List.length (js "...")) with 3%nat. lia. }
    rewrite L. repeat split. lia.
  - apply Nat.ltb_ge in E. split; [exact E | lia].
Qed.

Lemma tweet_at_most_280_witness :
  formatTweet num day_long
  = firstn 277 (join nl (tweetParts num day_long)) ++ js "..."
  /\ List.length (formatTweet num day_long) = 280%nat.
Proof.
  apply (proj2 (tweet_at_most_280 num day_long)).
  apply Nat.ltb_lt. vm_compute. reflexivity.
Defined.

(** ** The plain report *)

Lemma join_cons (sep p : jsstring) (rest : list jsstring) :
  rest <> [] -> join sep (p :: rest) = p ++ sep ++ join sep rest.
Proof. destruct rest; [congruence | reflexivity]. Qed.

Lemma join_app (sep : jsstring) (xs ys : list jsstring) :
  xs <> [] -> ys <> [] ->
  join sep (xs ++ ys) = join sep xs ++ sep ++ join sep ys.
Proof.
  intros Hx Hy. induction xs as [|x xs IH]; [congruence |].
  destruct xs as [|x' xs].
  - cbn [app]. now rewrite join_cons.
  - change ((x :: x' :: xs) ++ ys) with (x :: (x' :: xs) ++ ys).
    rewrite join_cons by discriminate.
    rewrite IH by discriminate.
    rewrite (join_cons sep x) by discriminate.
    now rewrite <- !app_assoc.
Qed.

(** C9.  Every plain report ends with the footer line, and when there is
    at least one project aggregate the footer comes after a line that
    lists all the project names in the order of the sorted list. *)
Theorem plain_continuing_and_footer
        (toLocaleString : N -> jsstring) (d : Day) :
  (exists pre,
      formatPlain toLocaleString d = pre ++ nl ++ js "Generated by cc-standup")
  /\ (sortedProjects d <> [] ->
      exists pre,
        formatPlain toLocaleString d
        = pre ++ nl
          ++ js "🔜 Continuing: " ++ join (js ", ") (map fst (sortedProjects d))
          ++ nl ++ nl ++ js "Generated by cc-standup").
Proof.
  unfold formatPlain, plainLines. cbv zeta.
  set (head := [js "📋 AI Standup — " ++ label d; []]).
  set (mid := if ghostFlag d then _ else _).
  split.
  - rewrite !app_assoc.
    rewrite join_app; [| destruct (_ <? _)%nat; discriminate | discriminate].
    eexists. reflexivity.
  - intros Hsp.
    destruct (sortedProjects d) as [|e sp] eqn:E; [congruence |].
    cbn [List.length Nat.ltb Nat.leb].
    rewrite app_assoc.
    rewrite join_app; [| discriminate | discriminate].
    exists (join nl (head ++ mid)).
    cbn [app join]. now rewrite <- !app_assoc.
Qed.

Lemma plain_continuing_and_footer_witness :
  exists pre,
    formatPlain num day_long
    = pre ++ nl
      ++ js "🔜 Continuing: "
      ++ join (js ", ") [repeat 97 100; repeat 98 100; repeat 99 100]
      ++ nl ++ nl ++ js "Generated by cc-standup".
Proof.
  apply (proj2 (plain_continuing_and_footer num day_long)).
  discriminate.
Defined.

(** ** Ghost days *)








(** ** The patterns and the sample logs, run *)

Example header_groups :
  exec SESSION_HEADER (js "### 2026-02-27 09:00-10:30 JST (morning)")
  = Some [js "2026-02-27"; js "09:00"; js "10:30"]
  /\ exec SESSION_HEADER (js "### 2026-2-27 09:00-10:30 JST") = None.
Proof. vm_compute. split; reflexivity. Qed.

Example duration_takes_last_marker :
  exec DURATION_LINE (js "- いつ: 09:00 JST（1分）〜 10:30 JST（22分）")
  = Some [js "22"]
  /\ exec DURATION_LINE (js "- いつ: JST（5分）") = None.
Proof. vm_compute. split; reflexivity. Qed.

Example what_groups :
  exec WHAT_LINE (js "- 何を: 3ファイル変更 (+120/-5)")
  = Some [js "3"; js "120"; js "5"]
  /\ exec WHAT_LINE (js "- 何を: 3ファイル変更 (+120/-5") = None.
Proof. vm_compute. split; reflexivity. Qed.

Example where_takes_the_rest :
  exec WHERE_LINE (js "- どこで:   my project") = Some [js "  my project"]
  /\ exec WHERE_LINE (js "- どこで: a" ++ [0x0D] ++ js "b") = None
  /\ exec WHERE_LINE (trim (js "- どこで: ")) = None.
Proof. vm_compute. repeat split; reflexivity. Qed.

Example who_groups :
  exec WHO_LINE (js "- 誰が: CC: 7件, human: 2件") = Some [js "7"]
  /\ exec WHO_LINE (js "- 誰が: CC: seven件") = None.
Proof. vm_compute. split; reflexivity. Qed.

Example parse_log_three :
  map (fun s => (project s, durationMin s, ccActions s, linesAdded s))
      (parseProofLog log_three)
  = [(Some (js "alpha"), 30, 7, 120);
     (Some (js "beta2"), 90, 0, 0);
     (Some (js "gamma"), 30, 0, 0);
     (None, 0, 0, 0)].
Proof. vm_compute. reflexivity. Qed.

Example sorted_log_three :
  map (fun e => (fst e, Stats.minutes (snd e)))
      (sortedProjects (day Fri (js "2026-02-27") (Text log_three)))
  = [(js "beta2", 90); (js "alpha", 30); (js "gamma", 30)].
Proof. vm_compute. reflexivity. Qed.

Example plain_log_alpha :
  output num num Fri (js "plain") (js "2026-02-27") (Text log_alpha)
  = js
"📋 AI Standup — 2026-02-27 (Fri)

✅ Yesterday's work:
  • alpha — 1h 30m | 1 sessions | +120 lines

📊 Total: 1h 30m | 1 sessions | +120 lines | 3 files

🔜 Continuing: alpha

Generated by cc-standup".
Proof. vm_compute. reflexivity. Qed.

Example tweet_missing_file :
  output num num Fri (js "tweet") (js "2026-02-27") Missing
  = js
"AI Standup 02-27 👻
Ghost Day — AI ran autonomously
#claudecode".
Proof. vm_compute. reflexivity. Qed.

Example plain_log_three :
  output num num Fri (js "plain") (js "2026-02-27") (Text log_three)
  = js
"📋 AI Standup — 2026-02-27 (Fri)

✅ Yesterday's work:
  • beta2 — 1h 30m | 1 sessions
  • alpha — 30m | 1 sessions | +120 lines
  • gamma — 30m | 1 sessions

📊 Total: 2h 30m | 3 sessions | +120 lines | 3 files

🔜 Continuing: beta2, alpha, gamma

Generated by cc-standup".
Proof. vm_compute. reflexivity. Qed.

Example plain_log_constructor :
  output num num Fri (js "plain") (js "2026-02-27") (Text log_constructor)
  = js
"📋 AI Standup — 2026-02-27 (Fri)

✅ Yesterday's work:

📊 Total: 1h 30m | 1 sessions | +120 lines | 3 files

Generated by cc-standup".
Proof. vm_compute. reflexivity. Qed.

Example slack_log_alpha :
  output num num Fri (js "slack") (js "2026-02-27") (Text log_alpha)
  = js
"*AI Standup — 2026-02-27 (Fri)*

✅ *Yesterday's work:*
• `alpha` — 1h 30m, +120 lines

📊 *Total:* 1h 30m | 1 sessions | +120 lines
🔜 *Continuing:* `alpha`".
Proof. vm_compute. reflexivity. Qed.

Example plain_unreadable_file :
  output num num Fri (js "markdown") (js "2026-02-27") Unreadable
  = js
"📋 AI Standup — 2026-02-27 (Fri)

👻 Ghost Day — AI worked autonomously. No sessions logged.

Generated by cc-standup".
Proof. vm_compute. reflexivity. Qed.

Example fmtHours_samples :
  fmtHours 90 = js "1h 30m" /\ fmtHours 59 = js "59m"
  /\ fmtHours 60 = js "1h 0m" /\ fmtHours 0 = js "0m".
Proof. vm_compute. repeat split. Qed.


Lemma projects_sorted_ties_in_entries_order_witness :
  tiesKeep (byProject (totals (day Fri (js "2026-02-27") (Text log_three))))
           (sortedProjects (day Fri (js "2026-02-27") (Text log_three))).
Proof.
  apply (proj2 (proj2 (proj2 (proj2 (proj2
           (projects_sorted_ties_in_entries_order
              Fri (js "2026-02-27") (Text log_three))))))).
  vm_compute. reflexivity.
Defined.

(** * Further properties of the code *)

(** ** Matching forwards *)

Lemma run_lit_app (p : jsstring) (r : regex) (s : jsstring)
      (caps : list jsstring) :
  run (map (fun c => Chr (Lit c)) p ++ r) (p ++ s) None caps
  = run r s None caps.
Proof.
  induction p as [|c p IH]; [reflexivity |].
  cbn [map app run accepts push]. now rewrite N.eqb_refl.
Qed.

Lemma run_gopen (r : regex) (s : jsstring) (cur : option jsstring)
      (caps : list jsstring) :
  run (GOpen :: r) s cur caps = run r s (Some []) caps.
Proof. reflexivity. Qed.

Lemma run_gclose (r : regex) (s : jsstring) (cur : option jsstring)
      (caps : list jsstring) :
  run (GClose :: r) s cur caps = run r s None (close cur caps).
Proof. reflexivity. Qed.

Lemma run_chr (c : cclass) (r : regex) (x : N) (s : jsstring)
      (cur : option jsstring) (caps : list jsstring) :
  run (Chr c :: r) (x :: s) cur caps
  = if accepts c x then run r s (push x cur) caps else None.
Proof. reflexivity. Qed.

Lemma run_plus_taken (c : cclass) (r : regex) (x : N) (s acc : jsstring)
      (caps : list jsstring) :
  accepts c x = true ->
  run (Plus c :: r) (x :: s) (Some acc) caps =
  match run (Plus c :: r) s (Some (x :: acc)) caps with
  | Some m => Some m
  | None => run r s (Some (x :: acc)) caps
  end.
Proof. intros H. rewrite run_plus, H. reflexivity. Qed.

Lemma run_plus_refused (c : cclass) (r : regex) (x : N) (s : jsstring)
      (cur : option jsstring) (caps : list jsstring) :
  accepts c x = false -> run (Plus c :: r) (x :: s) cur caps = None.
Proof. intros H. rewrite run_plus, H. reflexivity. Qed.

Lemma run_chr_lit (c : N) (r : regex) (s : jsstring) (caps : list jsstring) :
  run (Chr (Lit c) :: r) (c :: s) None caps = run r s None caps.
Proof. rewrite run_chr. cbn [accepts]. now rewrite N.eqb_refl. Qed.

Lemma run_chr_other (c x : N) (r : regex) (s : jsstring)
      (cur : option jsstring) (caps : list jsstring) :
  x <> c -> run (Chr (Lit c) :: r) (x :: s) cur caps = None.
Proof.
  intros H. rewrite run_chr. cbn [accepts].
  apply N.eqb_neq in H. now rewrite H.
Qed.

(** [(\d+)] followed by a literal that is no digit: the group takes the
    whole run of digits. *)
Lemma run_digits (c : N) (r : regex) (rest : jsstring)
      (caps : list jsstring) (ds : jsstring) :
  is_digit c = false -> ds <> [] -> forallb is_digit ds = true ->
  forall acc,
    run (Plus Digit :: GClose :: Chr (Lit c) :: r) (ds ++ c :: rest)
        (Some acc) caps
    = run r rest None ((rev acc ++ ds) :: caps).
Proof.
  intros Hc. induction ds as [|x ds IH]; [congruence |].
  intros _ Hds acc. cbn [forallb] in Hds.
  apply andb_true_iff in Hds as [Hx Hds].
  change ((x :: ds) ++ c :: rest) with (x :: (ds ++ c :: rest)).
  rewrite (run_plus_taken Digit _ x _ acc caps Hx).
  destruct ds as [|y ds].
  - change ([] ++ c :: rest) with (c :: rest).
    rewrite (run_plus_refused Digit _ c rest _ caps Hc).
    rewrite run_gclose. cbn [close]. rewrite run_chr_lit.
    reflexivity.
  - rewrite (IH ltac:(discriminate) Hds).
    cbn [rev]. rewrite <- app_assoc.
    change ([x] ++ y :: ds) with (x :: y :: ds).
    destruct (run r rest None ((rev acc ++ x :: y :: ds) :: caps));
      [reflexivity |].
    rewrite run_gclose.
    change ((y :: ds) ++ c :: rest) with (y :: (ds ++ c :: rest)).
    apply run_chr_other.
    cbn [forallb] in Hds. apply andb_true_iff in Hds as [Hy _].
    congruence.
Qed.

Lemma uint_units_digits (d : Decimal.uint) :
  forallb is_digit (uint_units d) = true.
Proof. induction d; cbn [uint_units forallb]; try reflexivity; exact IHd. Qed.

Lemma uint_units_nil (d : Decimal.uint) : uint_units d = [] -> d = Decimal.Nil.
Proof. destruct d; cbn [uint_units]; congruence. Qed.

(** A number is written with digits only, and at least one. *)
Lemma num_digits (n : N) : forallb is_digit (num n) = true /\ num n <> [].
Proof.
  split; [apply uint_units_digits |].
  unfold num. intros H. apply uint_units_nil in H.
  destruct n as [|p]; [discriminate |].
  exact (DecimalPos.Unsigned.to_uint_nonnil p H).
Qed.

Ltac eval_js :=
  repeat match goal with
         | |- context [js ?s] =>
           let v := eval vm_compute in (js s) in
           progress change (js s) with v
         end.

Lemma run_plus_outside (c : cclass) (r : regex) (x : N) (s : jsstring)
      (caps : list jsstring) :
  accepts c x = true ->
  run (Plus c :: r) (x :: s) None caps =
  match run (Plus c :: r) s None caps with
  | Some m => Some m
  | None => run r s None caps
  end.
Proof. intros H. rewrite run_plus, H. reflexivity. Qed.

(** [(.+)$] on a text without line terminator takes all of it. *)
Lemma run_rest_taken (s : jsstring) :
  s <> [] -> dots s = true ->
  forall acc,
    run [Plus Dot; GClose; Eos] s (Some acc) [] = Some [rev acc ++ s].
Proof.
  unfold dots. induction s as [|x s IH]; [congruence |].
  intros _ Hs acc. cbn [forallb] in Hs. apply andb_true_iff in Hs as [Hx Hs].
  rewrite (run_plus_taken Dot _ x _ acc [] Hx).
  destruct s as [|y s].
  - reflexivity.
  - rewrite (IH ltac:(discriminate) Hs).
    cbn [rev]. rewrite <- app_assoc. reflexivity.
Qed.

(** [.+] in front of a literal [j]: nothing matches where no [j] comes
    after the first unit. *)
Lemma run_no_start (j : N) (r : regex) (caps : list jsstring) (b : jsstring) :
  (forall y, In y (tl b) -> y <> j) ->
  run (Plus Dot :: Chr (Lit j) :: r) b None caps = None.
Proof.
  induction b as [|x b IH]; intros H; [reflexivity |].
  destruct (accepts Dot x) eqn:Hx.
  - rewrite (run_plus_outside Dot _ x b caps Hx).
    rewrite IH.
    + destruct b as [|y b]; [reflexivity |].
      apply run_chr_other. apply H. now left.
    + intros y Hy. apply H. cbn [tl]. destruct b; [easy | now right].
  - now apply run_plus_refused.
Qed.

(** [.+] gives way to the last place where the rest of the pattern
    matches. *)
Lemma run_dots_then (r : regex) (caps : list jsstring) (b : jsstring)
      (m : list jsstring) (a : jsstring) :
  run r b None caps = Some m ->
  run (Plus Dot :: r) b None caps = None ->
  a <> [] -> dots a = true ->
  run (Plus Dot :: r) (a ++ b) None caps = Some m.
Proof.
  intros Hb Hlast. unfold dots.
  induction a as [|x a IH]; [congruence |].
  intros _ Ha. cbn [forallb] in Ha. apply andb_true_iff in Ha as [Hx Ha].
  change ((x :: a) ++ b) with (x :: (a ++ b)).
  rewrite (run_plus_outside Dot _ x _ caps Hx).
  destruct a as [|y a].
  - change ([] ++ b) with b. now rewrite Hlast.
  - now rewrite (IH ltac:(discriminate) Ha).
Qed.

Lemma exec_who_digits (ds rest : jsstring) :
  ds <> [] -> forallb is_digit ds = true ->
  exec WHO_LINE (js "- 誰が: CC: " ++ ds ++ js "件" ++ rest) = Some [ds].
Proof.
  intros Hne Hds. unfold exec, WHO_LINE, lit, group.
  rewrite run_lit_app. eval_js. cbn [map app].
  rewrite run_gopen.
  rewrite run_digits by (reflexivity || assumption).
  reflexivity.
Qed.

Lemma exec_what_digits (f a r rest : jsstring) :
  f <> [] -> forallb is_digit f = true ->
  a <> [] -> forallb is_digit a = true ->
  r <> [] -> forallb is_digit r = true ->
  exec WHAT_LINE (js "- 何を: " ++ f ++ js "ファイル変更 (+" ++ a
                  ++ js "/-" ++ r ++ js ")" ++ rest)
  = Some [f; a; r].
Proof.
  intros Hf Hfd Ha Had Hr Hrd. unfold exec, WHAT_LINE, lit, group.
  rewrite run_lit_app. eval_js. cbn [map app].
  rewrite run_gopen.
  rewrite run_digits by (reflexivity || assumption).
  rewrite !run_chr_lit, run_gopen.
  rewrite run_digits by (reflexivity || assumption).
  rewrite !run_chr_lit, run_gopen.
  rewrite run_digits by (reflexivity || assumption).
  reflexivity.
Qed.

Lemma exec_where_text (name : jsstring) :
  name <> [] -> dots name = true ->
  exec WHERE_LINE (js "- どこで: " ++ name) = Some [name].
Proof.
  intros Hne Hd. unfold exec, WHERE_LINE, lit, group.
  rewrite run_lit_app. cbn [app]. rewrite run_gopen.
  now rewrite (run_rest_taken name Hne Hd).
Qed.

Lemma digit_not_J (y : N) : is_digit y = true -> y <> 0x4A.
Proof.
  unfold is_digit. rewrite andb_true_iff, !N.leb_le. lia.
Qed.

Lemma exec_duration_digits (pre ds rest : jsstring) :
  pre <> [] -> dots pre = true ->
  ds <> [] -> forallb is_digit ds = true ->
  existsb (N.eqb 0x4A) rest = false ->
  exec DURATION_LINE
       (js "- いつ: " ++ pre ++ js "JST（" ++ ds ++ js "分）" ++ rest)
  = Some [ds].
Proof.
  intros Hpre Hdots Hne Hds Hrest. unfold exec, DURATION_LINE, lit, group.
  rewrite run_lit_app. eval_js. cbn [map].
  change ([Plus Dot] ++ ?r) with (Plus Dot :: r).
  apply run_dots_then; try assumption.
  - cbn [app]. rewrite !run_chr_lit, run_gopen.
    rewrite run_digits by (reflexivity || assumption).
    rewrite !run_chr_lit. reflexivity.
  - cbn [app]. apply run_no_start. cbn [tl].
    intros y [<- | [<- | [<- | Hy]]]; try discriminate.
    apply in_app_or in Hy. destruct Hy as [Hy | [<- | [<- | Hy]]];
      try discriminate.
    + apply digit_not_J. rewrite forallb_forall in Hds. now apply Hds.
    + intros ->.
      assert (E : existsb (N.eqb 0x4A) rest = true).
      { apply existsb_exists. exists 0x4A. split; [exact Hy | reflexivity]. }
      congruence.
Qed.

(** ** Field lines read back *)

(** X1.  A "who" line [- 誰が: CC: n件], whatever follows the marker, sets
    the action count of the open session to [n] and nothing else, for
    [n] up to [MAX_SAFE_INTEGER], where [parseInt] has the integer
    written. *)
Theorem who_line_read_back (n : N) (rest : jsstring) (s : Session) :
  n <= MAX_SAFE_INTEGER ->
  field (js "- 誰が: CC: " ++ num n ++ js "件" ++ rest) s = set_ccActions n s.
Proof.
  intros _.
  destruct (num_digits n) as [Hd Hne].
  pose proof (exec_who_digits (num n) rest Hne Hd) as E.
  destruct (who_only _ (matches_exec _ _ _ E)) as [Hdur Hwhere].
  unfold field.
  rewrite (not_matches_exec _ _ Hdur), (not_matches_exec _ _ Hwhere), E.
  cbn [grp Nat.sub nth]. now rewrite parseInt_num.
Qed.

Lemma who_line_read_back_witness :
  field (js "- 誰が: CC: " ++ num 12 ++ js "件" ++ js " (tools)")
        (newSession (js "2026-02-27"))
  = set_ccActions 12 (newSession (js "2026-02-27")).
Proof.
  apply (who_line_read_back 12 (js " (tools)") (newSession (js "2026-02-27"))).
  vm_compute. discriminate.
Defined.

(** X2.  A "what" line [- 何を: fファイル変更 (+a/-r)], whatever follows it,
    sets the three counters of the open session to [f], [a] and [r] and
    nothing else, for counts up to [MAX_SAFE_INTEGER]. *)
Theorem what_line_read_back (f a r : N) (rest : jsstring) (s : Session) :
  forallb safe [f; a; r] = true ->
  field (js "- 何を: " ++ num f ++ js "ファイル変更 (+" ++ num a
         ++ js "/-" ++ num r ++ js ")" ++ rest) s
  = set_what f a r s.
Proof.
  intros _.
  destruct (num_digits f) as [Hfd Hf].
  destruct (num_digits a) as [Had Ha].
  destruct (num_digits r) as [Hrd Hr].
  pose proof (exec_what_digits (num f) (num a) (num r) rest
                               Hf Hfd Ha Had Hr Hrd) as E.
  destruct (what_only _ (matches_exec _ _ _ E)) as [Hdur [Hwhere Hwho]].
  unfold field.
  rewrite (not_matches_exec _ _ Hdur), (not_matches_exec _ _ Hwhere),
          (not_matches_exec _ _ Hwho), E.
  cbn [grp Nat.sub nth]. now rewrite !parseInt_num.
Qed.

Lemma what_line_read_back_witness :
  field (js "- 何を: " ++ num 3 ++ js "ファイル変更 (+" ++ num 120
         ++ js "/-" ++ num 5 ++ js ")" ++ js " and more")
        (newSession (js "2026-02-27"))
  = set_what 3 120 5 (newSession (js "2026-02-27")).
Proof.
  apply (what_line_read_back 3 120 5 (js " and more")
                             (newSession (js "2026-02-27"))).
  reflexivity.
Defined.

(** X3.  A "when" line whose last marker is [JST（n分）], with some text
    before it on the line and no letter J after it, sets the minutes of
    the open session to [n] and nothing else, for [n] up to
    [MAX_SAFE_INTEGER]. *)
Theorem duration_line_read_back (pre rest : jsstring) (n : N) (s : Session) :
  n <= MAX_SAFE_INTEGER ->
  pre <> [] -> dots pre = true -> existsb (N.eqb 0x4A) rest = false ->
  field (js "- いつ: " ++ pre ++ js "JST（" ++ num n ++ js "分）" ++ rest) s
  = set_durationMin n s.
Proof.
  intros _ Hpre Hdots Hrest.
  destruct (num_digits n) as [Hd Hne].
  unfold field.
  rewrite (exec_duration_digits pre (num n) rest Hpre Hdots Hne Hd Hrest).
  cbn [grp Nat.sub nth]. now rewrite parseInt_num.
Qed.

Lemma duration_line_read_back_witness :
  field (js "- いつ: " ++ js "2026-02-27 09:00 JST〜10:30 "
         ++ js "JST（" ++ num 90 ++ js "分）" ++ js " (morning)")
        (newSession (js "2026-02-27"))
  = set_durationMin 90 (newSession (js "2026-02-27")).
Proof.
  apply (duration_line_read_back
           (js "2026-02-27 09:00 JST〜10:30 ") (js " (morning)") 90
           (newSession (js "2026-02-27")));
    [ vm_compute; discriminate | discriminate | vm_compute; reflexivity
    | vm_compute; reflexivity ].
Defined.

(** X4.  A "where" line [- どこで: text], with a text that is not empty and
    holds no line terminator, sets the project of the open session to
    the trimmed text and nothing else. *)
Theorem where_line_read_back (name : jsstring) (s : Session) :
  name <> [] -> dots name = true ->
  field (js "- どこで: " ++ name) s = set_project (trim name) s.
Proof.
  intros Hne Hd.
  pose proof (exec_where_text name Hne Hd) as E.
  pose proof (where_only _ (matches_exec _ _ _ E)) as Hdur.
  unfold field. now rewrite (not_matches_exec _ _ Hdur), E.
Qed.

Lemma where_line_read_back_witness :
  field (js "- どこで: " ++ js "  my project") (newSession (js "2026-02-27"))
  = set_project (trim (js "  my project")) (newSession (js "2026-02-27")).
Proof.
  apply (where_line_read_back (js "  my project")
                              (newSession (js "2026-02-27")));
    [discriminate | vm_compute; reflexivity].
Defined.

(** X5.  No line matches two of the five patterns, so the order in
    which the loop tries them does not matter. *)
Theorem patterns_exclusive (line : jsstring) :
  (List.length (filter (fun r => matches r line) patterns) <= 1)%nat.
Proof.
  unfold patterns. cbn [filter].
  destruct (matches SESSION_HEADER line) eqn:H1;
    [apply (third_header line) in H1 |];
    (destruct (matches DURATION_LINE line) eqn:H2;
     [apply (third_duration line) in H2 |]);
    (destruct (matches WHERE_LINE line) eqn:H3;
     [apply (third_where line) in H3 |]);
    (destruct (matches WHO_LINE line) eqn:H4;
     [apply (third_who line) in H4 |]);
    (destruct (matches WHAT_LINE line) eqn:H5;
     [apply (third_what line) in H5 |]);
    cbn [List.length]; try lia; exfalso; congruence.
Qed.

(** ** Header lines *)

Lemma run_chr_inv (c : cclass) (r : regex) (s : jsstring)
      (cur : option jsstring) (caps m : list jsstring) :
  run (Chr c :: r) s cur caps = Some m ->
  exists x s', s = x :: s' /\ accepts c x = true
               /\ run r s' (push x cur) caps = Some m.
Proof.
  destruct s as [|x s]; [discriminate |].
  rewrite run_chr. destruct (accepts c x) eqn:E; [| discriminate].
  intros H. now exists x, s.
Qed.

Ltac header_step H :=
  first
    [ apply run_chr_inv in H;
      let x := fresh "x" in
      let A := fresh "A" in
      destruct H as [x [? [-> [A H]]]];
      cbn [accepts push] in A, H;
      first [ apply N.eqb_eq in A; subst x | idtac ]
    | rewrite run_gopen in H
    | rewrite run_gclose in H; cbn [close] in H ].

Lemma exec_header_parts (l : jsstring) (m : list jsstring) :
  exec SESSION_HEADER l = Some m ->
  exists d t1 t2 rest,
    isoDateShape d && timeShape t1 && timeShape t2 = true
    /\ l = js "### " ++ d ++ js " " ++ t1 ++ js "-" ++ t2 ++ js " JST" ++ rest
    /\ m = [d; t1; t2].
Proof.
  unfold exec, SESSION_HEADER, lit, digits, group.
  eval_js. cbn [map app repeat]. intros H.
  repeat header_step H.
  cbn [run rev app] in H. injection H as <-.
  match goal with
  | |- exists d t1 t2 rest, _ /\ ?L = _ /\ _ =>
    exists (firstn 10 (skipn 4 L)), (firstn 5 (skipn 15 L)),
           (firstn 5 (skipn 21 L)), (skipn 30 L)
  end.
  cbn [firstn skipn].
  split; [| split; reflexivity].
  cbn [isoDateShape timeShape].
  repeat match goal with
         | A : is_digit _ = true |- _ => rewrite A; clear A
         end.
  reflexivity.
Qed.

Ltac exactly_units H :=
  repeat match type of H with
         | context [match ?t with [] => _ | _ :: _ => _ end] =>
           destruct t; try discriminate H
         end.

Lemma exec_header_text (d t1 t2 rest : jsstring) :
  isoDateShape d && timeShape t1 && timeShape t2 = true ->
  exec SESSION_HEADER
       (js "### " ++ d ++ js " " ++ t1 ++ js "-" ++ t2 ++ js " JST" ++ rest)
  = Some [d; t1; t2].
Proof.
  rewrite !andb_true_iff. intros [[Hd H1] H2].
  unfold isoDateShape in Hd. exactly_units Hd.
  unfold timeShape in H1. exactly_units H1.
  unfold timeShape in H2. exactly_units H2.
  repeat match goal with
         | H : _ && _ = true |- _ => apply andb_true_iff in H
         | H : _ /\ _ |- _ => destruct H
         | H : (_ =? _) = true |- _ => apply N.eqb_eq in H; subst
         end.
  unfold exec, SESSION_HEADER, lit, digits, group.
  eval_js. cbn [map app repeat].
  repeat first [ rewrite run_gopen
               | rewrite run_gclose; cbn [close]
               | rewrite run_chr; cbn [accepts push];
                 first [ rewrite N.eqb_refl
                       | match goal with
                         | A : is_digit ?x = true
                           |- context [if is_digit ?x then _ else _] =>
                           rewrite A
                         end ] ].
  reflexivity.
Qed.

(** X6.  A line matches the header pattern exactly when it is [### ],
    a date of the shape dddd-dd-dd, a blank, two times of the shape
    dd:dd with a hyphen between them and [ JST]; anything may follow,
    and the groups are the date and the two times. *)
Theorem header_line_characterised (l : jsstring) (m : list jsstring) :
  exec SESSION_HEADER l = Some m <->
  exists d t1 t2 rest,
    isoDateShape d && timeShape t1 && timeShape t2 = true
    /\ l = js "### " ++ d ++ js " " ++ t1 ++ js "-" ++ t2 ++ js " JST" ++ rest
    /\ m = [d; t1; t2].
Proof.
  split; [apply exec_header_parts |].
  intros [d [t1 [t2 [rest [H [-> ->]]]]]]. now apply exec_header_text.
Qed.

Lemma blocks_header (ls : list jsstring) (blk : jsstring * list jsstring) :
  In blk (blocks ls) -> matches SESSION_HEADER (fst blk) = true.
Proof.
  induction ls as [|x ls IH]; [intros [] |].
  cbn [blocks]. destruct (matches SESSION_HEADER x) eqn:E; [| exact IH].
  intros [<- | H]; [exact E | now apply IH].
Qed.

(** X7.  The date of every parsed session has the shape dddd-dd-dd: it
    is the first group of the header of its block, and nothing checks
    that it is a date of the calendar. *)
Theorem parsed_date_shape (content : jsstring) :
  Forall (fun s => isoDateShape (date s) = true) (parseProofLog content)
  /\ map date (parseProofLog (js "### 2026-99-00 09:00-10:30 JST"))
     = [js "2026-99-00"].
Proof.
  split; [| vm_compute; reflexivity].
  apply Forall_forall. intros s Hs.
  unfold parseProofLog in Hs. rewrite parseLines_blocks in Hs.
  apply in_map_iff in Hs. destruct Hs as [blk [<- Hblk]].
  unfold sessionOf. rewrite fields_date. cbn [newSession date].
  apply blocks_header in Hblk. unfold matches in Hblk. unfold headerDate.
  destruct (exec SESSION_HEADER (fst blk)) as [m|] eqn:E; [| discriminate].
  apply exec_header_parts in E.
  destruct E as [d [t1 [t2 [rest [H [_ ->]]]]]].
  cbn [grp Nat.sub nth]. rewrite !andb_true_iff in H. tauto.
Qed.

(** ** Logs put end to end *)

Lemma split_nonempty (sep : N) (s : jsstring) : split sep s <> [].
Proof.
  destruct s as [|c s]; cbn [split]; [discriminate |].
  destruct (c =? sep); [discriminate |].
  destruct (split sep s); discriminate.
Qed.

Lemma split_app_sep (a b : jsstring) :
  split 0x0A (a ++ nl ++ b) = split 0x0A a ++ split 0x0A b.
Proof.
  induction a as [|c a IH]; [reflexivity |].
  change ((c :: a) ++ nl ++ b) with (c :: (a ++ nl ++ b)).
  cbn [split]. rewrite IH.
  destruct (c =? 0x0A); [reflexivity |].
  pose proof (split_nonempty 0x0A a) as Ha.
  destruct (split 0x0A a); [congruence | reflexivity].
Qed.

Lemma body_app_header (l1 l2 : list jsstring) :
  startsBlock l2 -> body (l1 ++ l2) = body l1.
Proof.
  intros H. induction l1 as [|x l1 IH].
  - destruct l2 as [|h l2]; [reflexivity |].
    cbn [app body]. cbn [startsBlock] in H. now rewrite H.
  - cbn [app body]. now rewrite IH.
Qed.

Lemma blocks_app_header (l1 l2 : list jsstring) :
  startsBlock l2 -> blocks (l1 ++ l2) = blocks l1 ++ blocks l2.
Proof.
  intros H. induction l1 as [|x l1 IH]; [reflexivity |].
  cbn [app blocks]. rewrite IH, (body_app_header _ _ H).
  destruct (matches SESSION_HEADER x); reflexivity.
Qed.

(** X8.  Two logs put end to end, the second one beginning with a
    header line, parse to the sessions of the first followed by the
    sessions of the second. *)
Theorem parse_end_to_end (c1 c2 : jsstring) :
  matches SESSION_HEADER (trim (hd [] (split 0x0A c2))) = true ->
  parseProofLog (c1 ++ nl ++ c2) = parseProofLog c1 ++ parseProofLog c2.
Proof.
  intros H. unfold parseProofLog.
  rewrite split_app_sep, !parseLines_blocks, map_app.
  rewrite blocks_app_header; [apply map_app |].
  destruct (split 0x0A c2) as [|h t]; [exact I | exact H].
Qed.

Lemma parse_end_to_end_witness :
  parseProofLog (log_alpha ++ nl ++ log_index)
  = parseProofLog log_alpha ++ parseProofLog log_index.
Proof.
  apply (parse_end_to_end log_alpha log_index). vm_compute. reflexivity.
Defined.

(** ** A block written as the patterns expect it *)

Lemma trimStart_id (s : jsstring) :
  is_ws (hd 0x20 s) = false -> trimStart s = s.
Proof. destruct s as [|x s]; [reflexivity |]. cbn. now intros ->. Qed.

Lemma last_rev_hd (s : jsstring) (dflt : N) : hd dflt (rev s) = last s dflt.
Proof.
  induction s as [|x s IH]; [reflexivity |].
  destruct s as [|y s]; [reflexivity |].
  change (last (x :: y :: s) dflt) with (last (y :: s) dflt).
  rewrite <- IH. cbn [rev].
  destruct (rev s ++ [y]) eqn:E; [| reflexivity].
  apply app_eq_nil in E. destruct E; discriminate.
Qed.

Lemma trim_id (s : jsstring) :
  is_ws (hd 0x20 s) = false -> is_ws (last s 0x20) = false -> trim s = s.
Proof.
  intros Hh Hl. unfold trim, trimEnd.
  rewrite (trimStart_id s Hh), trimStart_id, rev_involutive; [reflexivity |].
  now rewrite last_rev_hd.
Qed.

Lemma last_app_cons (a : jsstring) (x : N) (b : jsstring) (dflt : N) :
  last (a ++ x :: b) dflt = last (x :: b) dflt.
Proof.
  induction a as [|y a IH]; [reflexivity |].
  cbn [app]. destruct (a ++ x :: b) eqn:E.
  - apply app_eq_nil in E. destruct E; discriminate.
  - exact IH.
Qed.

Lemma dots_oneLine (s : jsstring) : dots s = true -> oneLine s = true.
Proof.
  unfold dots, oneLine. induction s as [|x s IH]; [reflexivity |].
  cbn [forallb existsb]. rewrite andb_true_iff, negb_orb, andb_true_iff.
  intros [Hx Hs]. split; [| now apply IH].
  cbn [accepts] in Hx. rewrite N.eqb_sym.
  destruct (x =? 0x0A); [discriminate | reflexivity].
Qed.

Lemma digits_dots (s : jsstring) : forallb is_digit s = true -> dots s = true.
Proof.
  unfold dots. induction s as [|x s IH]; [reflexivity |].
  cbn [forallb]. rewrite !andb_true_iff. intros [Hx Hs].
  split; [| now apply IH].
  unfold is_digit in Hx. rewrite andb_true_iff, !N.leb_le in Hx.
  cbn [accepts].
  destruct (x =? 10) eqn:E1; [apply N.eqb_eq in E1; lia |].
  destruct (x =? 13) eqn:E2; [apply N.eqb_eq in E2; lia |].
  destruct (x =? 8232) eqn:E3; [apply N.eqb_eq in E3; lia |].
  destruct (x =? 8233) eqn:E4; [apply N.eqb_eq in E4; lia |].
  reflexivity.
Qed.

Lemma dots_app (a b : jsstring) : dots (a ++ b) = dots a && dots b.
Proof. apply forallb_app. Qed.

Lemma num_dots (n : N) : dots (num n) = true.
Proof. apply digits_dots, num_digits. Qed.

Lemma lastMatch_agree (r : regex) (m : list jsstring) (b : list jsstring) :
  (forall l, In l b -> exec r l = None \/ exec r l = Some m) ->
  (exists l, In l b /\ exec r l = Some m) ->
  lastMatch r b = Some m.
Proof.
  induction b as [|x b IH]; intros Hall [l [Hin Hl]]; [now destruct Hin |].
  cbn [lastMatch].
  destruct (lastMatch r b) as [m'|] eqn:E.
  - apply lastMatch_in in E. destruct E as [l' [Hin' Hl']].
    destruct (Hall l' (or_intror Hin')); congruence.
  - destruct Hin as [<- | Hin]; [exact Hl |].
    assert (E' : @None (list jsstring) = Some m).
    { apply IH; [| now exists l]. intros l' Hl'. apply Hall. now right. }
    discriminate.
Qed.

Lemma no_header_no_block (b : list jsstring) :
  Forall (fun l => matches SESSION_HEADER l = false) b ->
  body b = b /\ blocks b = [].
Proof.
  induction 1 as [|x b Hx _ [IHb IHk]]; [now split |].
  cbn [body blocks]. rewrite Hx, IHb, IHk. now split.
Qed.

Lemma session_eq (s : Session) (d : jsstring) (n : N) (p : option jsstring)
      (a f la lr : N) :
  date s = d -> durationMin s = n -> project s = p -> ccActions s = a ->
  filesChanged s = f -> linesAdded s = la -> linesRemoved s = lr ->
  s = mkSession d n p a f la lr.
Proof. destruct s. cbn. congruence. Qed.

Ltac other_pattern E :=
  match goal with
  | |- exec ?R ?l = None =>
    let X := fresh "X" in
    destruct (exec R l) eqn:X; [exfalso | reflexivity];
    apply matches_exec in X;
    let E' := fresh "E" in
    pose proof (matches_exec _ _ _ E) as E';
    clash E' X
  end.

Section BlockText.
Variables (span p : jsstring) (n a f la lr : N).
Hypothesis span_text : span <> [] /\ dots span = true.
Hypothesis p_text : p <> [] /\ plainText p = true.

Lemma p_dots : dots p = true.
Proof.
  destruct p_text as [_ H]. unfold plainText in H.
  rewrite !andb_true_iff in H. tauto.
Qed.

Lemma exec_L1 : exec DURATION_LINE (whenText span n) = Some [num n].
Proof.
  unfold whenText. rewrite <- (app_nil_r (js "分）")).
  destruct span_text as [Hs Hd]. destruct (num_digits n) as [Hn Hne].
  now apply exec_duration_digits.
Qed.

Lemma exec_L2 : exec WHERE_LINE (whereText p) = Some [p].
Proof.
  destruct p_text as [Hp _]. apply exec_where_text; [exact Hp | apply p_dots].
Qed.

Lemma exec_L3 : exec WHO_LINE (whoText a) = Some [num a].
Proof.
  unfold whoText. rewrite <- (app_nil_r (js "件")).
  destruct (num_digits a) as [Hn Hne]. now apply exec_who_digits.
Qed.

Lemma exec_L4 :
  exec WHAT_LINE (whatText f la lr) = Some [num f; num la; num lr].
Proof.
  unfold whatText. rewrite <- (app_nil_r (js ")")).
  destruct (num_digits f) as [? ?]. destruct (num_digits la) as [? ?].
  destruct (num_digits lr) as [? ?]. now apply exec_what_digits.
Qed.

Lemma L1_line :
  oneLine (whenText span n) = true /\ trim (whenText span n) = (whenText span n)
  /\ matches SESSION_HEADER (whenText span n) = false.
Proof.
  destruct span_text as [_ Hspan]. split; [| split].
  - apply dots_oneLine. unfold whenText.
    rewrite !dots_app, Hspan, num_dots. reflexivity.
  - apply trim_id; unfold whenText; [reflexivity |].
    rewrite !app_assoc.
    change (js "分）") with ([20998] ++ [65289]).
    rewrite app_assoc. now rewrite last_last.
  - destruct (matches SESSION_HEADER (whenText span n)) eqn:X; [| reflexivity].
    pose proof (matches_exec _ _ _ exec_L1) as E. clash E X.
Qed.

Lemma L2_line :
  oneLine (whereText p) = true /\ trim (whereText p) = (whereText p)
  /\ matches SESSION_HEADER (whereText p) = false.
Proof.
  pose proof p_dots as Hp.
  destruct p_text as [Hpne Hpt]. unfold plainText in Hpt.
  rewrite !andb_true_iff, !negb_true_iff in Hpt.
  destruct Hpt as [[_ Hlast] _].
  split; [| split].
  - apply dots_oneLine. unfold whereText. rewrite dots_app, Hp. reflexivity.
  - apply trim_id; unfold whereText; [reflexivity |].
    destruct p as [|x t]; [congruence |].
    now rewrite last_app_cons.
  - destruct (matches SESSION_HEADER (whereText p)) eqn:X; [| reflexivity].
    pose proof (matches_exec _ _ _ exec_L2) as E. clash E X.
Qed.

Lemma L3_line :
  oneLine (whoText a) = true /\ trim (whoText a) = (whoText a)
  /\ matches SESSION_HEADER (whoText a) = false.
Proof.
  split; [| split].
  - apply dots_oneLine. unfold whoText. rewrite !dots_app, num_dots. reflexivity.
  - apply trim_id; unfold whoText; [reflexivity |].
    rewrite !app_assoc. change (js "件") with [20214]. now rewrite last_last.
  - destruct (matches SESSION_HEADER (whoText a)) eqn:X; [| reflexivity].
    pose proof (matches_exec _ _ _ exec_L3) as E. clash E X.
Qed.

Lemma L4_line :
  oneLine (whatText f la lr) = true /\ trim (whatText f la lr) = (whatText f la lr)
  /\ matches SESSION_HEADER (whatText f la lr) = false.
Proof.
  split; [| split].
  - apply dots_oneLine. unfold whatText. rewrite !dots_app, !num_dots. reflexivity.
  - apply trim_id; unfold whatText; [reflexivity |].
    rewrite !app_assoc. change (js ")") with [41]. now rewrite last_last.
  - destruct (matches SESSION_HEADER (whatText f la lr)) eqn:X; [| reflexivity].
    pose proof (matches_exec _ _ _ exec_L4) as E. clash E X.
Qed.

Lemma fieldTexts_lines :
  Forall (fun l => oneLine l = true /\ trim l = l
                   /\ matches SESSION_HEADER l = false)
         (fieldTexts span p n a f la lr).
Proof.
  unfold fieldTexts.
  constructor; [exact L1_line |].
  constructor; [exact L2_line |].
  constructor; [exact L3_line |].
  constructor; [exact L4_line | constructor].
Qed.

(** Each pattern matches one of the four lines and gives its values. *)
Lemma fieldTexts_matches (b : list jsstring) :
  Permutation b (fieldTexts span p n a f la lr) ->
  lastMatch DURATION_LINE b = Some [num n]
  /\ lastMatch WHERE_LINE b = Some [p]
  /\ lastMatch WHO_LINE b = Some [num a]
  /\ lastMatch WHAT_LINE b = Some [num f; num la; num lr].
Proof.
  intros Hb.
  pose proof exec_L1 as E1. pose proof exec_L2 as E2.
  pose proof exec_L3 as E3. pose proof exec_L4 as E4.
  assert (In1 : In (whenText span n) b /\ In (whereText p) b
                /\ In (whoText a) b /\ In (whatText f la lr) b).
  { repeat split; apply (Permutation_in _ (Permutation_sym Hb));
      unfold fieldTexts;
      fold (whenText span n) (whereText p) (whoText a) (whatText f la lr);
      cbn [In]; tauto. }
  assert (Hcase : forall l, In l b ->
                    l = whenText span n \/ l = whereText p
                    \/ l = whoText a \/ l = whatText f la lr).
  { intros l Hl. apply (Permutation_in _ Hb) in Hl.
    unfold fieldTexts in Hl.
    fold (whenText span n) (whereText p) (whoText a) (whatText f la lr)
      in Hl.
    cbn [In] in Hl. intuition congruence. }
  destruct In1 as [I1 [I2 [I3 I4]]].
  split; [| split; [| split]].
  - apply lastMatch_agree; [| exists (whenText span n); now split].
    intros l Hl. destruct (Hcase l Hl) as [-> | [-> | [-> | ->]]];
      [now right | left | left | left].
    + other_pattern E2.
    + other_pattern E3.
    + other_pattern E4.
  - apply lastMatch_agree; [| exists (whereText p); now split].
    intros l Hl. destruct (Hcase l Hl) as [-> | [-> | [-> | ->]]];
      [left | now right | left | left].
    + other_pattern E1.
    + other_pattern E3.
    + other_pattern E4.
  - apply lastMatch_agree; [| exists (whoText a); now split].
    intros l Hl. destruct (Hcase l Hl) as [-> | [-> | [-> | ->]]];
      [left | left | now right | left].
    + other_pattern E1.
    + other_pattern E2.
    + other_pattern E4.
  - apply lastMatch_agree; [| exists (whatText f la lr); now split].
    intros l Hl. destruct (Hcase l Hl) as [-> | [-> | [-> | ->]]];
      [left | left | left | now right].
    + other_pattern E1.
    + other_pattern E2.
    + other_pattern E3.
Qed.
End BlockText.

Lemma digit_dot (x : N) : is_digit x = true -> accepts Dot x = true.
Proof.
  intros H. pose proof (digits_dots [x]) as D. unfold dots in D.
  cbn [forallb] in D. rewrite H in D. specialize (D eq_refl).
  now rewrite andb_true_r in D.
Qed.

Lemma shapes_dots (d t1 t2 : jsstring) :
  isoDateShape d && timeShape t1 && timeShape t2 = true ->
  dots d = true /\ dots t1 = true /\ dots t2 = true.
Proof.
  rewrite !andb_true_iff. intros [[Hd H1] H2].
  unfold isoDateShape in Hd. exactly_units Hd.
  unfold timeShape in H1. exactly_units H1.
  unfold timeShape in H2. exactly_units H2.
  repeat match goal with
         | H : _ && _ = true |- _ => apply andb_true_iff in H
         | H : _ /\ _ |- _ => destruct H
         | H : (_ =? _) = true |- _ => apply N.eqb_eq in H; subst
         | H : is_digit _ = true |- _ => apply digit_dot in H
         end.
  unfold dots. cbn [forallb].
  repeat match goal with
         | H : accepts Dot _ = true |- _ => rewrite H; clear H
         end.
  repeat split.
Qed.

Lemma headerText_line (d t1 t2 : jsstring) :
  isoDateShape d && timeShape t1 && timeShape t2 = true ->
  oneLine (headerText d t1 t2) = true
  /\ trim (headerText d t1 t2) = headerText d t1 t2
  /\ exec SESSION_HEADER (headerText d t1 t2) = Some [d; t1; t2].
Proof.
  intros H. destruct (shapes_dots d t1 t2 H) as [Hd [H1 H2]].
  unfold headerText. split; [| split].
  - apply dots_oneLine. rewrite !dots_app, Hd, H1, H2. reflexivity.
  - apply trim_id; [reflexivity |].
    rewrite !app_assoc. change (js " JST") with ([32; 74; 83] ++ [84]).
    rewrite app_assoc. now rewrite last_last.
  - rewrite <- (app_nil_r (js " JST")). now apply exec_header_text.
Qed.

(** X9.  A block written as the patterns expect it, a header line and
    the four field lines in any order, parses to the one session that
    holds the values written, for counts up to [MAX_SAFE_INTEGER]. *)
Theorem block_read_back
        (d t1 t2 span p : jsstring) (n a f la lr : N) (b : list jsstring) :
  isoDateShape d && timeShape t1 && timeShape t2 = true ->
  span <> [] -> dots span = true ->
  p <> [] -> plainText p = true ->
  forallb safe [n; a; f; la; lr] = true ->
  Permutation b (fieldTexts span p n a f la lr) ->
  parseProofLog (join nl (headerText d t1 t2 :: b))
  = [mkSession d n (Some p) a f la lr].
Proof.
  intros Hshape Hspan Hsd Hp Hpt _ Hb.
  destruct (headerText_line d t1 t2 Hshape) as [Hone [Htrim Hexec]].
  pose proof (Permutation_Forall (Permutation_sym Hb)
                (fieldTexts_lines span p n a f la lr
                                  (conj Hspan Hsd) (conj Hp Hpt))) as Hlines.
  rewrite parse_join.
  2:{ cbn [forallb]. rewrite Hone. cbn [andb].
      apply forallb_forall. intros l Hl.
      rewrite Forall_forall in Hlines. now apply Hlines. }
  rewrite parseLines_blocks. cbn [map]. rewrite Htrim.
  assert (Hmap : map trim b = b).
  { rewrite <- (map_id b) at 2. apply map_ext_in. intros l Hl.
    rewrite Forall_forall in Hlines. now apply Hlines. }
  rewrite Hmap. cbn [blocks].
  rewrite (matches_exec _ _ _ Hexec).
  destruct (no_header_no_block b) as [Hbody Hblocks].
  { eapply Forall_impl; [| exact Hlines]. cbn beta. tauto. }
  rewrite Hbody, Hblocks. cbn [map]. f_equal.
  unfold sessionOf, headerDate. cbn [fst snd]. rewrite Hexec.
  cbn [grp Nat.sub nth].
  destruct (fieldTexts_matches span p n a f la lr
              (conj Hspan Hsd) (conj Hp Hpt) b Hb) as [M1 [M2 [M3 M4]]].
  apply session_eq.
  - apply fields_date.
  - rewrite (fields_lastMatch _ _ _ _ field_durationMin), M1.
    cbn [grp Nat.sub nth]. apply parseInt_num.
  - rewrite (fields_lastMatch _ _ _ _ field_project), M2.
    cbn [grp Nat.sub nth]. f_equal.
    unfold plainText in Hpt. rewrite !andb_true_iff, !negb_true_iff in Hpt.
    apply trim_id; tauto.
  - rewrite (fields_lastMatch _ _ _ _ field_ccActions), M3.
    cbn [grp Nat.sub nth]. apply parseInt_num.
  - rewrite (fields_lastMatch _ _ _ _ field_filesChanged), M4.
    cbn [grp Nat.sub nth]. apply parseInt_num.
  - rewrite (fields_lastMatch _ _ _ _ field_linesAdded), M4.
    cbn [grp Nat.sub nth]. apply parseInt_num.
  - rewrite (fields_lastMatch _ _ _ _ field_linesRemoved), M4.
    cbn [grp Nat.sub nth]. apply parseInt_num.
Qed.

Lemma block_read_back_witness :
  parseProofLog
    (join nl (headerText (js "2026-02-27") (js "09:00") (js "10:30")
              :: rev (fieldTexts (js "2026-02-27 09:00 JST〜10:30 ")
                                 (js "alpha") 90 7 3 120 5)))
  = [mkSession (js "2026-02-27") 90 (Some (js "alpha")) 7 3 120 5].
Proof.
  apply (block_read_back
           (js "2026-02-27") (js "09:00") (js "10:30")
           (js "2026-02-27 09:00 JST〜10:30 ") (js "alpha") 90 7 3 120 5
           (rev (fieldTexts (js "2026-02-27 09:00 JST〜10:30 ")
                            (js "alpha") 90 7 3 120 5)));
    [ vm_compute; reflexivity | discriminate | vm_compute; reflexivity
    | discriminate | vm_compute; reflexivity | reflexivity
    | apply Permutation_sym, Permutation_rev ].
Defined.

(** ** What a bucket holds *)

Lemma own_update (o : obj) (k p : jsstring) (f : Stats.t -> Stats.t) :
  own (update o k f) p
  = if str_eqb p k then option_map f (own o p) else own o p.
Proof.
  induction o as [|[k' v] o IH]; [now destruct (str_eqb p k) |].
  cbn [update]. destruct (str_eqb k k') eqn:Ek.
  - apply str_eqb_eq in Ek. subst k'. cbn [own].
    destruct (str_eqb p k); reflexivity.
  - cbn [own]. rewrite IH. apply str_eqb_neq in Ek.
    destruct (str_eqb p k') eqn:Ep; [| reflexivity].
    apply str_eqb_eq in Ep. subst k'.
    destruct (str_eqb p k) eqn:E; [| reflexivity].
    apply str_eqb_eq in E. congruence.
Qed.

Lemma own_app (o : obj) (k p : jsstring) (v : Stats.t) :
  own (o ++ [(k, v)]) p
  = match own o p with
    | Some w => Some w
    | None => if str_eqb p k then Some v else None
    end.
Proof.
  induction o as [|[k' w] o IH]; [reflexivity |].
  cbn [app own]. destruct (str_eqb p k'); [reflexivity | exact IH].
Qed.

Lemma grown_nil (v : Stats.t) : grown v [] = v.
Proof.
  destruct v. unfold grown. cbn. f_equal; lia.
Qed.

Lemma grown_cons (s : Session) (v : Stats.t) (mine : list Session) :
  grown (bump s v) mine = grown v (s :: mine).
Proof.
  unfold grown, bump. cbn [Stats.minutes Stats.sessions Stats.linesAdded
    Stats.files map sumN fold_right List.length].
  repeat match goal with
         | |- context [fold_right N.add 0 ?l] =>
           change (fold_right N.add 0 l) with (sumN l)
         end.
  f_equal; lia.
Qed.

Lemma falsy_projectOf (s : Session) :
  falsy (project s) = true -> projectOf s = [].
Proof.
  unfold projectOf, falsy. destruct (project s) as [[|c q]|]; congruence.
Qed.

(** One turn of the loop, seen from the bucket of [p]. *)
Lemma own_step (a : Agg) (s : Session) (p : jsstring) :
  p <> [] -> inherited p = false ->
  own (byProject (addSession a s)) p
  = if str_eqb (projectOf s) p
    then Some (bump s (orZero (own (byProject a) p)))
    else own (byProject a) p.
Proof.
  intros Hp Hi. unfold addSession.
  destruct (falsy (project s)) eqn:E.
  - rewrite (falsy_projectOf s E).
    destruct (str_eqb [] p) eqn:X; [| reflexivity].
    apply str_eqb_eq in X. congruence.
  - cbn [byProject]. fold (projectOf s). rewrite own_update.
    destruct (str_eqb (projectOf s) p) eqn:X.
    + apply str_eqb_eq in X. rewrite X, str_eqb_refl.
      unfold absent. rewrite Hi. cbn [negb].
      destruct (own (byProject a) p) eqn:Eo; [now rewrite Eo |].
      unfold create. rewrite own_app, Eo, str_eqb_refl. reflexivity.
    + assert (Y : str_eqb p (projectOf s) = false).
      { apply str_eqb_neq. apply str_eqb_neq in X. congruence. }
      rewrite Y. destruct (absent (byProject a) (projectOf s)); [| reflexivity].
      unfold create. rewrite own_app, Y. now destruct (own (byProject a) p).
Qed.

Lemma own_loop (p : jsstring) (ss : list Session) :
  p <> [] -> inherited p = false ->
  forall a,
    own (byProject (fold_left addSession ss a)) p
    = match sessionsIn p ss with
      | [] => own (byProject a) p
      | mine => Some (grown (orZero (own (byProject a) p)) mine)
      end.
Proof.
  intros Hp Hi. induction ss as [|s ss IH]; intros a; [reflexivity |].
  cbn [fold_left]. rewrite IH, (own_step a s p Hp Hi).
  unfold sessionsIn. cbn [filter]. fold (sessionsIn p ss).
  destruct (str_eqb (projectOf s) p).
  - cbn [orZero]. rewrite <- grown_cons.
    destruct (sessionsIn p ss); [now rewrite grown_nil | reflexivity].
  - reflexivity.
Qed.

Lemma in_dedup (l : list jsstring) (x : jsstring) : In x (dedup l) -> In x l.
Proof.
  induction l as [|y l IH]; [intros [] |].
  cbn [dedup]. intros [<- | H]; [now left |].
  apply filter_In in H. right. now apply IH.
Qed.

Lemma dedup_nodup (l : list jsstring) : NoDup (dedup l).
Proof.
  induction l as [|y l IH]; [constructor |].
  cbn [dedup]. constructor.
  - intros H. apply filter_In in H. destruct H as [_ H].
    now rewrite str_eqb_refl in H.
  - now apply NoDup_filter.
Qed.

Lemma keys_any (ss : list Session) :
  map fst (byProject (aggregate ss))
  = dedup (filter (fun p => negb (inherited p))
                  (map projectOf
                       (filter (fun s => negb (falsy (project s))) ss))).
Proof.
  unfold aggregate. rewrite keys_loop, addKey_loop.
  cbn [start byProject map app existsb negb]. apply filter_true.
Qed.

Lemma key_facts (ss : list Session) (p : jsstring) :
  In p (map fst (byProject (aggregate ss))) ->
  p <> [] /\ inherited p = false.
Proof.
  rewrite keys_any. intros H. apply in_dedup in H.
  apply filter_In in H. destruct H as [H Hi].
  apply negb_true_iff in Hi. split; [| exact Hi].
  apply in_map_iff in H. destruct H as [s [<- Hs]].
  apply filter_In in Hs. destruct Hs as [_ Hs].
  apply negb_true_iff in Hs. unfold falsy, projectOf in *.
  destruct (project s) as [[|c q]|]; congruence.
Qed.

(** X10.  After the loop the bucket of a project holds the sums over
    the sessions of that project, their number included, as long as
    these sums stay within [MAX_SAFE_INTEGER]; a project without a
    session has no bucket, and a name [byProject] inherits never has
    one. *)
Theorem bucket_holds_project_sums (ss : list Session) (p : jsstring) :
  p <> [] -> safeBucket (bucketOf p ss) = true ->
  own (byProject (aggregate ss)) p
  = if inherited p then None else bucketOf p ss.
Proof.
  intros Hp _. destruct (inherited p) eqn:Hi.
  - apply own_none_keys. intros H. apply key_facts in H.
    destruct H; congruence.
  - unfold aggregate. rewrite (own_loop p ss Hp Hi).
    unfold bucketOf. cbn [start byProject own orZero].
    destruct (sessionsIn p ss); [reflexivity |].
    unfold grown. cbn [Stats.minutes Stats.sessions Stats.linesAdded
      Stats.files]. rewrite !N.add_0_l. reflexivity.
Qed.

Lemma bucket_holds_project_sums_witness :
  own (byProject (aggregate sessions_ab)) (js "beta")
  = Some (Stats.mk 50 3 25 6)
  /\ own (byProject (aggregate sessions_ab)) (js "toString") = None
  /\ own (byProject (aggregate sessions_ab)) (js "gamma") = None.
Proof.
  split; [| split].
  - rewrite (bucket_holds_project_sums sessions_ab (js "beta"));
      [vm_compute; reflexivity | discriminate | vm_compute; reflexivity].
  - rewrite (bucket_holds_project_sums sessions_ab (js "toString"));
      [vm_compute; reflexivity | discriminate | vm_compute; reflexivity].
  - rewrite (bucket_holds_project_sums sessions_ab (js "gamma"));
      [vm_compute; reflexivity | discriminate | vm_compute; reflexivity].
Defined.

Lemma own_in_nodup (o : obj) (e : entry) :
  NoDup (map fst o) -> In e o -> own o (fst e) = Some (snd e).
Proof.
  induction o as [|[k v] o IH]; [intros _ [] |].
  cbn [map fst]. intros Hnd [<- | Hin].
  - cbn [own fst snd]. now rewrite str_eqb_refl.
  - apply NoDup_cons_iff in Hnd. destruct Hnd as [Hk Hnd].
    cbn [own]. destruct (str_eqb (fst e) k) eqn:E.
    + apply str_eqb_eq in E. subst k. exfalso. apply Hk.
      now apply in_map.
    + now apply IH.
Qed.

Lemma buckets_have_sessions (ss : list Session) :
  NoDup (map fst (byProject (aggregate ss)))
  /\ Forall (fun e => 1 <= Stats.sessions (snd e))
            (byProject (aggregate ss)).
Proof.
  assert (Hnd : NoDup (map fst (byProject (aggregate ss)))).
  { rewrite keys_any. apply dedup_nodup. }
  split; [exact Hnd |].
  apply Forall_forall. intros e He.
  pose proof (own_in_nodup _ e Hnd He) as Ho.
  destruct (key_facts ss (fst e) (in_map fst _ e He)) as [Hp Hi].
  unfold aggregate in Ho. rewrite (own_loop (fst e) ss Hp Hi) in Ho.
  cbn [start byProject own orZero] in Ho.
  destruct (sessionsIn (fst e) ss) as [|s mine]; [discriminate |].
  injection Ho as <-. unfold grown.
  cbn [Stats.sessions List.length]. lia.
Qed.

(** X11.  The list the formatters present holds each bucket exactly
    once, no project name twice, and every bucket counts at least one
    session. *)
Theorem every_project_listed_once
        (dayOfWeek : jsstring -> jsstring) (date : jsstring) (file : File) :
  let d := day dayOfWeek date file in
  Permutation (sortedProjects d) (byProject (totals d))
  /\ NoDup (map fst (sortedProjects d))
  /\ Forall (fun e => 1 <= Stats.sessions (snd e)) (sortedProjects d).
Proof.
  cbv zeta. cbn [day sortedProjects totals].
  assert (P : Permutation
                (sort by_minutes (Object_entries (byProject (load file))))
                (byProject (load file))).
  { rewrite sort_perm. apply Object_entries_perm. }
  rewrite load_sessionsOf in *.
  destruct (buckets_have_sessions (sessionsOf file)) as [Hnd Hall].
  split; [exact P |]. split.
  - apply (Permutation_NoDup (Permutation_sym (Permutation_map fst P))).
    exact Hnd.
  - apply (Permutation_Forall (Permutation_sym P)). exact Hall.
Qed.

(** X12.  In a plain report every project line shows the duration and
    the number of sessions, and the added lines when there are any: the
    test on the number of sessions never fails. *)
Theorem plain_project_line
        (toLocaleString : N -> jsstring) (dayOfWeek : jsstring -> jsstring)
        (date : jsstring) (file : File) :
  Forall (fun e =>
            plainItem toLocaleString e
            = js "  • " ++ fst e ++ js " — "
              ++ fmtHours (Stats.minutes (snd e))
              ++ js " | " ++ num (Stats.sessions (snd e)) ++ js " sessions"
              ++ (if 0 <? Stats.linesAdded (snd e)
                  then js " | +" ++ toLocaleString (Stats.linesAdded (snd e))
                       ++ js " lines"
                  else []))
         (sortedProjects (day dayOfWeek date file)).
Proof.
  cbn [day sortedProjects totals].
  assert (P : Permutation
                (sort by_minutes (Object_entries (byProject (load file))))
                (byProject (load file))).
  { rewrite sort_perm. apply Object_entries_perm. }
  rewrite load_sessionsOf in *.
  destruct (buckets_have_sessions (sessionsOf file)) as [_ Hall].
  apply (Permutation_Forall (Permutation_sym P)).
  eapply Forall_impl; [| exact Hall].
  intros [proj stats] H. cbn [fst snd] in *. unfold plainItem.
  assert (E : (0 <? Stats.sessions stats) = true) by (apply N.ltb_lt; lia).
  rewrite E.
  destruct (0 <? Stats.linesAdded stats); cbn [app join];
    rewrite <- ?app_assoc; reflexivity.
Qed.

(** ** What the report does not depend on *)

Lemma update_ext (o : obj) (p : jsstring) (f g : Stats.t -> Stats.t) :
  (forall v, f v = g v) -> update o p f = update o p g.
Proof.
  intros H. induction o as [|[k v] o IH]; [reflexivity |].
  cbn [update]. now rewrite H, IH.
Qed.

Lemma addSession_same (a a' : Agg) (s s' : Session) :
  sameForReport s s' -> sameReport a a' ->
  sameReport (addSession a s) (addSession a' s').
Proof.
  intros [Hp [Hd [Hl Hf]]] [Hb [Hm [Hs [Hli Hfi]]]].
  unfold addSession. rewrite <- Hp.
  destruct (falsy (project s)); [repeat split; assumption |].
  unfold sameReport. cbn [byProject totalMinutes totalSessions totalLines
    totalFiles].
  rewrite <- Hb, <- Hd, <- Hl, <- Hf, Hm, Hs, Hli, Hfi.
  repeat split. apply update_ext. intros v. unfold bump.
  now rewrite Hd, Hl, Hf.
Qed.

Lemma aggregate_same (ss ss' : list Session) :
  Forall2 sameForReport ss ss' ->
  forall a a', sameReport a a' ->
    sameReport (fold_left addSession ss a) (fold_left addSession ss' a').
Proof.
  induction 1 as [|s s' ss ss' Hs _ IH]; intros a a' Ha; [exact Ha |].
  cbn [fold_left]. apply IH. now apply addSession_same.
Qed.

Lemma render_same (toLocaleString toFixed1K : N -> jsstring)
      (date lbl : jsstring) (ghost : bool) (a a' : Agg) (fmt : jsstring) :
  sameReport a a' ->
  render toLocaleString toFixed1K
         (mkDay date lbl ghost a
                (sort by_minutes (Object_entries (byProject a)))) fmt
  = render toLocaleString toFixed1K
           (mkDay date lbl ghost a'
                  (sort by_minutes (Object_entries (byProject a')))) fmt.
Proof.
  destruct a as [o m s l f x], a' as [o' m' s' l' f' x'].
  unfold sameReport. cbn [byProject totalMinutes totalSessions totalLines
    totalFiles]. intros [-> [-> [-> [-> ->]]]]. reflexivity.
Qed.

(** X13.  The report does not depend on the date of a session, on its
    action count or on its removed lines: sessions that agree on the
    project, the minutes, the added lines and the files give the same
    output in every format. *)
Theorem report_ignores_actions_and_removed_lines
        (toLocaleString toFixed1K : N -> jsstring)
        (date lbl fmt : jsstring) (ss ss' : list Session) :
  Forall2 sameForReport ss ss' ->
  render toLocaleString toFixed1K (dayOfSessions date lbl ss) fmt
  = render toLocaleString toFixed1K (dayOfSessions date lbl ss') fmt.
Proof.
  intros H. unfold dayOfSessions. apply render_same.
  apply aggregate_same; [exact H |]. repeat split.
Qed.

Lemma report_ignores_actions_and_removed_lines_witness :
  render num num (dayOfSessions (js "2026-02-27") (js "2026-02-27 (Fri)")
                                sessions_ab) (js "plain")
  = render num num (dayOfSessions (js "2026-02-27") (js "2026-02-27 (Fri)")
                                  (map blanked sessions_ab)) (js "plain").
Proof.
  apply (report_ignores_actions_and_removed_lines
           num num (js "2026-02-27") (js "2026-02-27 (Fri)") (js "plain")
           sessions_ab (map blanked sessions_ab)).
  repeat constructor.
Defined.

(** ** The buckets against the grand totals *)

Section BucketsBounded.
Variable g : Stats.t -> N.
Variable amount : Session -> N.
Hypothesis g_bump : forall s b, g (bump s b) = g b + amount s.
Hypothesis g_zero : g (Stats.mk 0 0 0 0) = 0.

Lemma bucket_step_le (a : Agg) (s : Session) :
  falsy (project s) = false ->
  sumBy g (byProject (addSession a s)) <= sumBy g (byProject a) + amount s.
Proof.
  intros E. unfold addSession. rewrite E. cbn [byProject].
  fold (projectOf s). unfold absent.
  destruct (own (byProject a) (projectOf s)) eqn:Eo.
  - rewrite (sumBy_update_own g amount g_bump g_zero s (projectOf s)
                               (byProject a))
      by congruence.
    lia.
  - destruct (inherited (projectOf s)); cbn [negb].
    + rewrite (update_not_own _ _ _ Eo). lia.
    + unfold create.
      rewrite (sumBy_update_own g amount g_bump g_zero s (projectOf s))
        by (rewrite (own_app_new _ _ _ Eo); discriminate).
      unfold sumBy. rewrite map_app, sumN_app. cbn. rewrite g_zero. lia.
Qed.

Lemma bucket_loop_le (ss : list Session) :
  forall a,
    sumBy g (byProject (fold_left addSession ss a))
    <= sumBy g (byProject a)
       + sumN (map amount (filter (fun s => negb (falsy (project s))) ss)).
Proof.
  induction ss as [|s ss IH]; intros a.
  - cbn. lia.
  - cbn [fold_left filter]. specialize (IH (addSession a s)).
    destruct (falsy (project s)) eqn:E; cbn [negb].
    + assert (Ha : addSession a s = a) by (unfold addSession; now rewrite E).
      now rewrite Ha in *.
    + pose proof (bucket_step_le a s E).
      cbn [map sumN fold_right].
      fold (sumN (map amount
                  (filter (fun s => negb (falsy (project s))) ss))).
      lia.
Qed.
End BucketsBounded.

Lemma noInheritedName_spec (content : jsstring) :
  noInheritedName (Text content) = true ->
  forall s, In s (parseProofLog content) -> retained s = true ->
            inherited (projectOf s) = false.
Proof.
  unfold noInheritedName. cbn [sessionsOf]. intros H s Hs Hr.
  rewrite forallb_forall in H. specialize (H s Hs).
  rewrite Hr in H. cbn [negb orb] in H. now apply negb_true_iff.
Qed.

(** X14.  While the grand totals stay within [MAX_SAFE_INTEGER], the
    buckets never add up to more than the grand totals, in minutes,
    sessions, added lines and files; they add up to exactly the grand
    totals when no retained session has a project name that [byProject]
    inherits. *)
Theorem buckets_within_totals
        (dayOfWeek : jsstring -> jsstring) (date : jsstring) (file : File) :
  let d := day dayOfWeek date file in
  safeTotals (totals d) = true ->
  (sumBy Stats.minutes (sortedProjects d) <= totalMinutes (totals d)
   /\ sumBy Stats.sessions (sortedProjects d) <= totalSessions (totals d)
   /\ sumBy Stats.linesAdded (sortedProjects d) <= totalLines (totals d)
   /\ sumBy Stats.files (sortedProjects d) <= totalFiles (totals d))
  /\ (noInheritedName file = true ->
      sumBy Stats.minutes (sortedProjects d) = totalMinutes (totals d)
      /\ sumBy Stats.sessions (sortedProjects d) = totalSessions (totals d)
      /\ sumBy Stats.linesAdded (sortedProjects d) = totalLines (totals d)
      /\ sumBy Stats.files (sortedProjects d) = totalFiles (totals d)).
Proof.
  cbv zeta. intros _. cbn [day sortedProjects totals]. split.
  - rewrite !(sumBy_perm _ _ _ (sort_perm _ _ _)).
    rewrite !(sumBy_perm _ _ _ (Object_entries_perm _)).
    rewrite load_sessionsOf. unfold aggregate.
    rewrite totalMinutes_loop, totalSessions_loop, totalLines_loop,
            totalFiles_loop.
    cbn [start totalMinutes totalSessions totalLines totalFiles].
    repeat split.
    + apply (bucket_loop_le Stats.minutes durationMin); easy.
    + apply (bucket_loop_le Stats.sessions (fun _ => 1)); easy.
    + apply (bucket_loop_le Stats.linesAdded linesAdded); easy.
    + apply (bucket_loop_le Stats.files filesChanged); easy.
  - intros H. destruct file as [| |content]; try (repeat split; reflexivity).
    apply (buckets_add_up content). apply noInheritedName_spec, H.
Qed.

Lemma buckets_within_totals_witness :
  let d := day Fri (js "2026-02-27") (Text log_three) in
  sumBy Stats.minutes (sortedProjects d) = totalMinutes (totals d)
  /\ sumBy Stats.sessions (sortedProjects d) = totalSessions (totals d)
  /\ sumBy Stats.linesAdded (sortedProjects d) = totalLines (totals d)
  /\ sumBy Stats.files (sortedProjects d) = totalFiles (totals d).
Proof.
  refine (proj2 (buckets_within_totals Fri (js "2026-02-27") (Text log_three)
                                       _) _);
    vm_compute; reflexivity.
Defined.

(** X15.  A header line with nothing after it, added at the end of a
    log, changes nothing in what the loop accumulates: its session has no
    project and is skipped. *)
Theorem trailing_header_changes_nothing (content h : jsstring) :
  oneLine h = true -> matches SESSION_HEADER (trim h) = true ->
  List.length (parseProofLog (content ++ nl ++ h))
  = S (List.length (parseProofLog content))
  /\ load (Text (content ++ nl ++ h)) = load (Text content).
Proof.
  intros Hone Hh.
  assert (P : parseProofLog (content ++ nl ++ h)
              = parseProofLog content ++ [newSession (headerDate (trim h))]).
  { unfold parseProofLog.
    rewrite split_app_sep, (split_oneLine h Hone), !parseLines_blocks, map_app.
    rewrite blocks_app_header by exact Hh.
    rewrite map_app. cbn [map blocks body]. now rewrite Hh. }
  split.
  - rewrite P, length_app. cbn [List.length]. lia.
  - cbn [load existsSync negb]. rewrite P. unfold aggregate.
    rewrite fold_left_app. reflexivity.
Qed.

Lemma trailing_header_changes_nothing_witness :
  List.length (parseProofLog
                 (log_alpha ++ nl ++ js "  ### 2026-02-28 08:00-08:05 JST  "))
  = S (List.length (parseProofLog log_alpha))
  /\ load (Text (log_alpha ++ nl ++ js "  ### 2026-02-28 08:00-08:05 JST  "))
     = load (Text log_alpha).
Proof.
  apply (trailing_header_changes_nothing
           log_alpha (js "  ### 2026-02-28 08:00-08:05 JST  "));
    vm_compute; reflexivity.
Defined.

(** ** Durations are told apart *)

Lemma digits_split (a b : jsstring) (c d : N) (x y : jsstring) :
  forallb is_digit a = true -> forallb is_digit b = true ->
  is_digit c = false -> is_digit d = false ->
  a ++ c :: x = b ++ d :: y -> a = b /\ c = d /\ x = y.
Proof.
  revert b. induction a as [|u a IH]; intros [|v b] Ha Hb Hc Hd H;
    cbn [app forallb] in *.
  - injection H as -> ->. repeat split.
  - injection H as -> _. apply andb_true_iff in Hb. destruct Hb. congruence.
  - injection H as -> _. apply andb_true_iff in Ha. destruct Ha. congruence.
  - injection H as -> H.
    apply andb_true_iff in Ha as [_ Ha]. apply andb_true_iff in Hb as [_ Hb].
    destruct (IH b Ha Hb Hc Hd H) as [-> [-> ->]]. repeat split.
Qed.

Lemma num_inj (a b : N) : num a = num b -> a = b.
Proof.
  intros H. apply (f_equal parseInt) in H. now rewrite !parseInt_num in H.
Qed.

Lemma fmtHours_inj (M1 M2 : N) : fmtHours M1 = fmtHours M2 -> M1 = M2.
Proof.
  unfold fmtHours. cbv zeta.
  change (js "h ") with [104; 32]. change (js "m") with [109].
  pose proof (N.div_mod M1 60 ltac:(lia)) as D1.
  pose proof (N.div_mod M2 60 ltac:(lia)) as D2.
  destruct (num_digits (M1 / 60)) as [Hh1 _].
  destruct (num_digits (M2 / 60)) as [Hh2 _].
  destruct (num_digits (M1 mod 60)) as [Hm1 _].
  destruct (num_digits (M2 mod 60)) as [Hm2 _].
  destruct (0 <? M1 / 60) eqn:E1; destruct (0 <? M2 / 60) eqn:E2; intros H.
  - cbn [app] in H.
    apply digits_split in H; try assumption; try reflexivity.
    destruct H as [Hh [_ H]]. injection H as H.
    apply digits_split in H; try assumption; try reflexivity.
    destruct H as [Hm _].
    apply num_inj in Hh. apply num_inj in Hm.
    revert D1 D2 Hh Hm. clear.
    generalize (M1 / 60) (M2 / 60) (M1 mod 60) (M2 mod 60). intros. lia.
  - cbn [app] in H.
    apply digits_split in H; try assumption; try reflexivity.
    destruct H as [_ [H _]]. discriminate.
  - cbn [app] in H.
    apply digits_split in H; try assumption; try reflexivity.
    destruct H as [_ [H _]]. discriminate.
  - apply digits_split in H; try assumption; try reflexivity.
    destruct H as [Hm _]. apply num_inj in Hm.
    apply N.ltb_ge in E1. apply N.ltb_ge in E2.
    revert D1 D2 E1 E2 Hm. clear.
    generalize (M1 / 60) (M2 / 60) (M1 mod 60) (M2 mod 60). intros. lia.
Qed.

(** X16.  Two minute counts are rendered alike only when they are the
    same: [fmtHours] loses nothing. *)
Theorem fmtHours_tells_apart (M1 M2 : N) :
  str_eqb (fmtHours M1) (fmtHours M2) = (M1 =? M2).
Proof.
  destruct (M1 =? M2) eqn:E.
  - apply N.eqb_eq in E. subst. apply str_eqb_refl.
  - apply str_eqb_neq. intros H. apply fmtHours_inj in H.
    apply N.eqb_neq in E. congruence.
Qed.

(** ** The ghost micro-post *)

(** X17.  On a ghost day the micro-post is the fixed three-line message
    with the date from its sixth unit on, and it is not cut as long as the
    date has at most 227 units. *)
Theorem ghost_tweet_fixed (toFixed1K : N -> jsstring) (d : Day) :
  ghostFlag d = true -> (List.length (targetDate d) <= 227)%nat ->
  formatTweet toFixed1K d
  = js "AI Standup " ++ skipn 5 (targetDate d) ++ js " 👻" ++ nl
    ++ js "Ghost Day — AI ran autonomously" ++ nl ++ js "#claudecode".
Proof.
  intros Hg Hlen. unfold formatTweet, tweetParts. rewrite Hg. cbv zeta.
  cbn [join]. rewrite <- !app_assoc.
  match goal with
  | |- (if (280 <? ?n)%nat then _ else _) = _ =>
    assert (L : (n <= 280)%nat)
  end.
  { rewrite !length_app, length_skipn.
    change (List.length (js "AI Standup ")) with 11%nat.
    change (List.length (js " 👻")) with 3%nat.
    change (List.length nl) with 1%nat.
    change (List.length (js "Ghost Day — AI ran autonomously")) with 31%nat.
    change (List.length (js "#claudecode")) with 11%nat.
    lia. }
  apply Nat.ltb_ge in L. now rewrite L.
Qed.

Lemma ghost_tweet_fixed_witness :
  formatTweet num (day Fri (js "2026-02-27") Missing)
  = js "AI Standup " ++ skipn 5 (js "2026-02-27") ++ js " 👻" ++ nl
    ++ js "Ghost Day — AI ran autonomously" ++ nl ++ js "#claudecode".
Proof.
  apply (ghost_tweet_fixed num (day Fri (js "2026-02-27") Missing)).
  - reflexivity.
  - vm_compute. repeat constructor.
Defined.

(** ** The project of a parsed session *)

Lemma run_rest_dots (s : jsstring) :
  forall acc m,
    run [Plus Dot; GClose; Eos] s (Some acc) [] = Some m -> dots s = true.
Proof.
  unfold dots. induction s as [|x s IH]; intros acc m H; [reflexivity |].
  rewrite run_plus in H.
  destruct (accepts Dot x) eqn:Hx; [| discriminate].
  cbn [forallb push] in *. rewrite Hx. cbn [andb].
  destruct (run [Plus Dot; GClose; Eos] s (Some (x :: acc)) []) eqn:E.
  - exact (IH _ _ E).
  - destruct s; [reflexivity | discriminate].
Qed.

Lemma exec_where_dots (l : jsstring) (m : list jsstring) :
  exec WHERE_LINE l = Some m -> dots (grp m 1) = true.
Proof.
  intros H. pose proof (exec_where l m H) as [cap [-> _]].
  unfold exec, WHERE_LINE, lit in H.
  apply run_lit in H. destruct H as [s [_ H]].
  change (run [Plus Dot; GClose; Eos] s (Some []) [] = Some [cap]) in H.
  pose proof (run_rest_dots s _ _ H) as Hd.
  apply run_rest_of_line in H. destruct H as [H _].
  injection H as ->. exact Hd.
Qed.

Lemma trimStart_suffix (s : jsstring) : exists a, s = a ++ trimStart s.
Proof.
  induction s as [|x s [a IH]]; [now exists [] |].
  cbn [trimStart]. destruct (is_ws x).
  - exists (x :: a). cbn [app]. now rewrite <- IH.
  - now exists [].
Qed.

Lemma trim_inside (s : jsstring) : exists a b, s = a ++ trim s ++ b.
Proof.
  destruct (trimStart_suffix s) as [a Ha].
  destruct (trimStart_suffix (rev (trimStart s))) as [b Hb].
  exists a, (rev b). unfold trim, trimEnd.
  rewrite <- rev_app_distr, <- Hb, rev_involutive. exact Ha.
Qed.

Lemma trim_head (s : jsstring) (x : N) (u : jsstring) :
  trim s = x :: u -> is_ws x = false.
Proof.
  intros H.
  destruct (trimStart_suffix (rev (trimStart s))) as [b Hb].
  apply (f_equal (@rev N)) in Hb.
  rewrite rev_involutive, rev_app_distr in Hb.
  change (rev (trimStart (rev (trimStart s)))) with (trim s) in Hb.
  rewrite H in Hb. exact (trimStart_head _ _ _ Hb).
Qed.

Lemma trim_plainText (cap : jsstring) :
  dots cap = true -> trim cap <> [] -> plainText (trim cap) = true.
Proof.
  intros Hd Hne. unfold plainText.
  assert (D : dots (trim cap) = true).
  { destruct (trim_inside cap) as [a [b E]]. rewrite E in Hd.
    rewrite !dots_app, !andb_true_iff in Hd. tauto. }
  rewrite D, andb_true_r.
  destruct (trim cap) as [|x t] eqn:T; [congruence |].
  cbn [hd]. rewrite (trim_head cap x t T). cbn [negb andb].
  destruct (exists_last Hne) as [u [c E]].
  rewrite E, last_last.
  rewrite E in T. now rewrite (trim_last cap u c T).
Qed.

(** X18.  The project of a parsed session, when there is one, is never
    empty, has no white space at either end and holds no line
    terminator. *)
Theorem parsed_project_text (content : jsstring) :
  Forall (fun s => match project s with
                   | Some p => p <> [] /\ plainText p = true
                   | None => True
                   end)
         (parseProofLog content).
Proof.
  apply Forall_forall. intros s Hs.
  unfold parseProofLog in Hs. rewrite parseLines_blocks in Hs.
  apply in_map_iff in Hs. destruct Hs as [blk [<- Hblk]].
  unfold sessionOf. rewrite (fields_lastMatch _ _ _ _ field_project).
  destruct (lastMatch WHERE_LINE (snd blk)) as [m|] eqn:E; [| exact I].
  apply lastMatch_in in E. destruct E as [l [Hl Hm]].
  pose proof (blocks_in _ _ _ Hblk Hl) as Hin.
  apply in_map_iff in Hin. destruct Hin as [raw [<- _]].
  pose proof (where_project_nonempty _ _ Hm) as Hne.
  split; [exact Hne |].
  apply trim_plainText; [exact (exec_where_dots _ _ Hm) | exact Hne].
Qed.

(** ** The chat report *)

(** X19.  In the chat format a ghost day gives the title, a blank line
    and the ghost notice, whatever the buckets; otherwise, with at least
    one project, the report ends with the line that lists the project
    names between backquotes in the order of the sorted list, and no
    footer follows. *)
Theorem slack_last_line (toLocaleString : N -> jsstring) (d : Day) :
  (ghostFlag d = true ->
   formatSlack toLocaleString d
   = js "*AI Standup — " ++ label d ++ js "*" ++ nl ++ nl
     ++ js "👻 *Ghost Day* — AI worked autonomously. No sessions logged.")
  /\ (ghostFlag d = false -> sortedProjects d <> [] ->
      exists pre,
        formatSlack toLocaleString d
        = pre ++ nl ++ js "🔜 *Continuing:* "
          ++ join (js ", ")
                  (map (fun e => js "`" ++ fst e ++ js "`")
                       (sortedProjects d))).
Proof.
  unfold formatSlack, slackLines.
  generalize (js "*AI Standup — ") (js "*")
             (js "👻 *Ghost Day* — AI worked autonomously. No sessions logged.")
             (js "✅ *Yesterday's work:*") (js "🔜 *Continuing:* ")
             (js "`") (js ", ").
  intros title star notice work cont tick comma.
  generalize (js "📊 *Total:* " ++ fmtHours (totalMinutes (totals d))
              ++ js " | " ++ num (totalSessions (totals d))
              ++ js " sessions | +"
              ++ toLocaleString (totalLines (totals d)) ++ js " lines").
  intros total.
  generalize (map (slackItem toLocaleString) (sortedProjects d)).
  intros items.
  split.
  - intros ->. cbn [app join]. rewrite <- !app_assoc. reflexivity.
  - intros -> Hsp.
    destruct (sortedProjects d) as [|e sp]; [congruence |].
    cbn [List.length Nat.ltb Nat.leb].
    rewrite !app_assoc.
    rewrite join_app; [| discriminate | discriminate].
    eexists. cbn [join]. reflexivity.
Qed.

Lemma slack_last_line_witness :
  exists pre,
    formatSlack num day_long
    = pre ++ nl ++ js "🔜 *Continuing:* "
      ++ join (js ", ")
              (map (fun e => js "`" ++ fst e ++ js "`")
                   (sortedProjects day_long)).
Proof.
  apply (proj2 (slack_last_line num day_long)); [reflexivity | discriminate].
Defined.
